(** * E-Learning backend: auth gate and content hierarchy

    A shallow embedding of the Express/Mongoose handlers of the
    repository: the authentication middleware, the user controller
    (both generations of it), the user routes with their inline logout
    handler, and the course, lesson and topic routes.  The document
    store is a record of finite maps, a handler is a function from the
    store and the request to the new store and the response. *)

From stdpp Require Import gmap strings list fin_maps.
From Stdlib Require Import ZArith Ascii.

Local Open Scope Z_scope.
Local Open Scope string_scope.

(** ** JavaScript string helpers *)

Definition space : ascii := " "%char.

(** [s.split(' ')]: the pieces between single spaces; never empty. *)
Fixpoint split_space (s : string) : list string :=
  match s with
  | EmptyString => [EmptyString]
  | String c r =>
      if Ascii.eqb c space then EmptyString :: split_space r
      else match split_space r with
           | [] => [String c EmptyString]
           | w :: ws => String c w :: ws
           end
  end.

(** [authHeader && authHeader.split(' ')[1]] followed by the truthiness
    test on the result: [None] stands for every falsy value the
    expression can take (undefined header, empty header, no second
    piece, empty second piece). *)
Definition tokenOf (authHeader : option string) : option string :=
  match authHeader with
  | None => None
  | Some h =>
      match split_space h !! 1%nat with
      | None => None
      | Some t => if String.eqb t "" then None else Some t
      end
  end.

(** A string without a space, as every compact JWT is. *)
Fixpoint space_free (s : string) : bool :=
  match s with
  | EmptyString => true
  | String c r => negb (Ascii.eqb c space) && space_free r
  end.

Definition compact (s : string) : Prop := s ≠ "" ∧ space_free s = true.

(** ** Data model (models/course.js, models/lesson.js, models/topic.js) *)

(** Mongoose ObjectIds, in the order in which they are drawn. *)
Abbreviation ObjectId := N (only parsing).

(** A path parameter or body field that Mongoose casts to an ObjectId:
    the cast either yields an id or throws a CastError. *)
Inductive IdParam :=
  | IdOk (i : ObjectId)
  | IdMalformed.

Inductive Role := RoleUser | RoleAdmin.

#[global] Instance Role_eq_dec : EqDecision Role.
Proof. solve_decision. Defined.

Record User := {
  u_id : ObjectId;
  u_name : string;
  u_email : string;
  u_password : string;
  u_role : Role;
  u_profilePhoto : option string;
  u_phoneNumber : option string;
  u_courses : list string;
  u_knowledge : option string }.

Record Course := {
  c_id : ObjectId;
  c_title : string;
  c_description : string;
  c_instructor : string;
  c_price : Z;
  c_image : option string }.

(** A lesson: the paths of lessonSchema and the version key [__v],
    which Mongoose starts at 0 and raises whenever a save writes a
    change of the [topics] array.  The version keys of the other
    documents never change and are left out. *)
Record Lesson := {
  l_id : ObjectId;
  l_title : string;
  l_description : string;
  l_courseId : ObjectId;
  l_topics : list ObjectId;
  l_content : option string;
  l_v : N }.

Record Topic := {
  t_id : ObjectId;
  t_title : string;
  t_description : string;
  t_lessonId : ObjectId;
  t_image : option string }.

(** The persistent collections and the two process-wide blacklists:
    [tokenBlacklist] is the Set of utils/tokenBlacklist.js, which the
    middleware reads; [routeBlacklist] is the array declared in the
    user routes file.  [nextId] is the next fresh ObjectId. *)
Record Store := {
  users : gmap ObjectId User;
  courses : gmap ObjectId Course;
  lessons : gmap ObjectId Lesson;
  topics : gmap ObjectId Topic;
  tokenBlacklist : gset string;
  routeBlacklist : list string;
  nextId : ObjectId }.

Definition set_users (f : gmap ObjectId User → gmap ObjectId User) (st : Store) : Store :=
  {| users := f (users st); courses := courses st; lessons := lessons st;
     topics := topics st; tokenBlacklist := tokenBlacklist st;
     routeBlacklist := routeBlacklist st; nextId := nextId st |}.

Definition set_courses (f : gmap ObjectId Course → gmap ObjectId Course) (st : Store) : Store :=
  {| users := users st; courses := f (courses st); lessons := lessons st;
     topics := topics st; tokenBlacklist := tokenBlacklist st;
     routeBlacklist := routeBlacklist st; nextId := nextId st |}.

Definition set_lessons (f : gmap ObjectId Lesson → gmap ObjectId Lesson) (st : Store) : Store :=
  {| users := users st; courses := courses st; lessons := f (lessons st);
     topics := topics st; tokenBlacklist := tokenBlacklist st;
     routeBlacklist := routeBlacklist st; nextId := nextId st |}.

Definition set_topics (f : gmap ObjectId Topic → gmap ObjectId Topic) (st : Store) : Store :=
  {| users := users st; courses := courses st; lessons := lessons st;
     topics := f (topics st); tokenBlacklist := tokenBlacklist st;
     routeBlacklist := routeBlacklist st; nextId := nextId st |}.

Definition set_tokenBlacklist (f : gset string → gset string) (st : Store) : Store :=
  {| users := users st; courses := courses st; lessons := lessons st;
     topics := topics st; tokenBlacklist := f (tokenBlacklist st);
     routeBlacklist := routeBlacklist st; nextId := nextId st |}.

Definition set_routeBlacklist (f : list string → list string) (st : Store) : Store :=
  {| users := users st; courses := courses st; lessons := lessons st;
     topics := topics st; tokenBlacklist := tokenBlacklist st;
     routeBlacklist := f (routeBlacklist st); nextId := nextId st |}.

(** [new Model(...)] draws a fresh [_id]. *)
Definition bump (st : Store) : Store :=
  {| users := users st; courses := courses st; lessons := lessons st;
     topics := topics st; tokenBlacklist := tokenBlacklist st;
     routeBlacklist := routeBlacklist st; nextId := N.succ (nextId st) |}.

Definition emptyStore : Store :=
  {| users := ∅; courses := ∅; lessons := ∅; topics := ∅;
     tokenBlacklist := ∅; routeBlacklist := []; nextId := 0%N |}.

(** Ids are drawn in increasing order: no collection holds a document
    under an id that has not been drawn yet. *)
Definition ids_below (st : Store) : Prop :=
  ∀ i : ObjectId, (nextId st ≤ i)%N →
    users st !! i = None ∧ courses st !! i = None
    ∧ lessons st !! i = None ∧ topics st !! i = None.

(** ** Responses *)

(** What a handler can catch: a Mongoose validation failure, a cast
    failure, a duplicate key, a failure of the password comparison.
    The response carries [err.message]. *)
Inductive Exception :=
  | ValidationError
  | CastError
  | DuplicateKey
  | CompareError.

Inductive Json :=
  | JNull
  | JMessage (m : string)
  | JError (e : string)
  | JMessageOf (e : Exception)
  | JErrorOf (e : Exception)
  | JUser (u : User)
  | JCourse (c : Course)
  | JLesson (l : Lesson)
  | JTopic (t : Topic)
  | JSignup (m : string) (u : User) (token : string)
  | JSignupNoToken (m : string) (u : User)
  | JLogin (m : string) (token : string) (u : User).

Record Response := { status : Z; body : Json }.

(** A middleware either answers the request or calls [next()], here
    with the value it attached to the request. *)
Inductive Mw (A : Type) :=
  | Respond (r : Response)
  | Next (a : A).
Arguments Respond {A} r.
Arguments Next {A} a.

(** The part of the request every protected route reads, and the time
    at which it is served. *)
Record Ctx := { authorization : option string; now : Z }.

(** ** External collaborators *)

(** The claims a session token carries: [{ id, role }].  Every token
    the handlers sign carries the [_id] and the role of a stored user. *)
Record Payload := { p_id : ObjectId; p_role : Role }.

(** jsonwebtoken ([jwt.sign payload secret expiresIn now],
    [jwt.verify token secret now], [None] when verify throws), the
    signing secret of the environment, and the two password methods of
    the User model, which is not among the sources: the hash applied
    when a user is saved, and [user.comparePassword(candidate)], which
    resolves to a boolean or throws. *)
Class Externals := {
  JWT_SECRET : string;
  jwt_sign : Payload → string → Z → Z → string;
  jwt_verify : string → string → Z → option Payload;
  hashPassword : string → string;
  comparePassword : User → option string → Exception + bool }.

(** The contract of jsonwebtoken that the handlers rely on: a token
    verifies under the key that signed it until it expires, and it is a
    compact string. *)
Class JwtSound (E : Externals) : Prop := {
  jwt_verify_sign : ∀ p e t t',
    t ≤ t' < t + e →
    jwt_verify (jwt_sign p JWT_SECRET e t) JWT_SECRET t' = Some p;
  jwt_sign_compact : ∀ p s e t, compact (jwt_sign p s e t) }.

Definition oneHour : Z := 3600.

Section Handlers.
Context {E : Externals}.

(** ** middleware/authMiddleware.js *)

Definition authenticateToken (st : Store) (cx : Ctx) : Mw User :=
  match tokenOf (authorization cx) with
  | None =>
      Respond {| status := 401; body := JMessage "Access denied. No token provided." |}
  | Some token =>
      if decide (token ∈ tokenBlacklist st) then
        Respond {| status := 403;
                   body := JMessage "Token is blacklisted. Please log in again." |}
      else
        match jwt_verify token JWT_SECRET (now cx) with
        | None => Respond {| status := 403; body := JMessage "Invalid token." |}
        | Some userPayload =>
            match users st !! p_id userPayload with
            | None => Respond {| status := 404; body := JMessage "User not found." |}
            | Some dbUser => Next dbUser
            end
        end
  end.

Definition authorizeRoles (roles : list Role) (user : User) : Mw User :=
  if decide (u_role user ∈ roles) then Next user
  else Respond {| status := 403;
                  body := JMessage "Access denied. Insufficient permissions." |}.

(** [router.METHOD(path, authenticateToken, handler)] *)
Definition authenticated (st : Store) (cx : Ctx)
    (handler : User → Store * Response) : Store * Response :=
  match authenticateToken st cx with
  | Respond r => (st, r)
  | Next user => handler user
  end.

(** [router.METHOD(path, authenticateToken, authorizeRoles(...), handler)] *)
Definition authorized (roles : list Role) (st : Store) (cx : Ctx)
    (handler : User → Store * Response) : Store * Response :=
  authenticated st cx (λ user,
    match authorizeRoles roles user with
    | Respond r => (st, r)
    | Next user => handler user
    end).


(** ** Mongoose queries *)

(** [Model.findById(id)]: throws a CastError on an id that does not
    cast, resolves to the document or to null otherwise. *)
Definition findById {A : Type} (m : gmap ObjectId A) (id : IdParam)
    : Exception + option A :=
  match id with
  | IdOk i => inr (m !! i)
  | IdMalformed => inl CastError
  end.

(** [Model.findByIdAndDelete(id)]: the document that was removed, if
    any, and the collection without it. *)
Definition findByIdAndDelete {A : Type} (m : gmap ObjectId A) (id : IdParam)
    : Exception + (option A * gmap ObjectId A) :=
  match id with
  | IdOk i => inr (m !! i, delete i m)
  | IdMalformed => inl CastError
  end.

(** [Model.deleteMany({ _id: { $in: ids } })] *)
Definition deleteManyIn {A : Type} (ids : list ObjectId) (m : gmap ObjectId A)
    : gmap ObjectId A :=
  filter (λ kv, kv.1 ∉ ids) m.

(** [User.findOne({ email })]; no stored email is null, so an
    undefined email matches nothing. *)
Definition findOneByEmail (m : gmap ObjectId User) (email : option string)
    : option User :=
  match email with
  | None => None
  | Some e => head (filter (λ u, u_email u = e) ((map_to_list m).*2))
  end.

(** The [required] validator on a String path: undefined and the empty
    string both fail it. *)
Definition required (o : option string) : option string :=
  match o with
  | None => None
  | Some s => if String.eqb s "" then None else Some s
  end.

(** The [required] validator on an ObjectId path, after the cast. *)
Definition requiredId (o : option IdParam) : option ObjectId :=
  match o with
  | Some (IdOk i) => Some i
  | _ => None
  end.

(** Modelled from the spec: the User model (models/User) is not among
    the sources.  The spec gives the role as the enumeration
    [user | admin], the email as unique across users, and the display
    name, email and credential as the fields a user is made of; the
    credential is stored hashed. *)
Definition parseRole (s : string) : option Role :=
  if String.eqb s "user" then Some RoleUser
  else if String.eqb s "admin" then Some RoleAdmin
  else None.

(** Modelled from the spec: [new User({...}).save()] for the missing
    User model, with the validation and the unique email the spec
    states. *)
Definition saveUser (st : Store) (name email password : option string)
    (role : string) (profilePhoto phoneNumber : option string)
    (userCourses : list string) (knowledge : option string)
    : Exception + (Store * User) :=
  match required name, required email, required password, parseRole role with
  | Some n, Some e, Some p, Some r =>
      match findOneByEmail (users st) (Some e) with
      | Some _ => inl DuplicateKey
      | None =>
          let newUser :=
            {| u_id := nextId st; u_name := n; u_email := e;
               u_password := hashPassword p; u_role := r;
               u_profilePhoto := profilePhoto; u_phoneNumber := phoneNumber;
               u_courses := userCourses; u_knowledge := knowledge |} in
          inr (set_users (insert (nextId st) newUser) (bump st), newUser)
      end
  | _, _, _, _ => inl ValidationError
  end.

(** ** controllers/userController.js *)

Record SignupBody := {
  sb_name : option string;
  sb_email : option string;
  sb_password : option string;
  sb_role : option string;
  sb_profilePhoto : option string;
  sb_phoneNumber : option string;
  sb_courses : list string;
  sb_knowledge : option string }.

Record LoginBody := {
  lg_email : option string;
  lg_password : option string }.

(** [role || "user"] *)
Definition roleOrDefault (role : option string) : string :=
  match role with
  | None => "user"
  | Some s => if String.eqb s "" then "user" else s
  end.

(** signup of the later controller: the response carries a token. *)
Definition signup (st : Store) (t : Z) (b : SignupBody) : Store * Response :=
  match findOneByEmail (users st) (sb_email b) with
  | Some _ => (st, {| status := 400; body := JMessage "User already exists" |})
  | None =>
      match saveUser st (sb_name b) (sb_email b) (sb_password b)
              (roleOrDefault (sb_role b)) (sb_profilePhoto b)
              (sb_phoneNumber b) (sb_courses b) (sb_knowledge b) with
      | inl err => (st, {| status := 400; body := JMessageOf err |})
      | inr (st', newUser) =>
          let token :=
            jwt_sign {| p_id := u_id newUser; p_role := u_role newUser |}
                     JWT_SECRET oneHour t in
          (st', {| status := 201;
                   body := JSignup "User created successfully" newUser token |})
      end
  end.

(** signup of the earlier controller: four fields, no token. *)
Definition signup_old (st : Store) (b : SignupBody) : Store * Response :=
  match findOneByEmail (users st) (sb_email b) with
  | Some _ => (st, {| status := 400; body := JMessage "User already exists" |})
  | None =>
      match saveUser st (sb_name b) (sb_email b) (sb_password b)
              (roleOrDefault (sb_role b)) None None [] None with
      | inl err => (st, {| status := 400; body := JMessageOf err |})
      | inr (st', newUser) =>
          (st', {| status := 201;
                   body := JSignupNoToken "User created successfully" newUser |})
      end
  end.

(** login of the later controller. *)
Definition login (st : Store) (t : Z) (b : LoginBody) : Store * Response :=
  match findOneByEmail (users st) (lg_email b) with
  | None => (st, {| status := 400; body := JMessage "Invalid email or password" |})
  | Some user =>
      match comparePassword user (lg_password b) with
      | inl err => (st, {| status := 500; body := JMessageOf err |})
      | inr false =>
          (st, {| status := 400; body := JMessage "Invalid email or password" |})
      | inr true =>
          let token :=
            jwt_sign {| p_id := u_id user; p_role := u_role user |}
                     JWT_SECRET oneHour t in
          (st, {| status := 200; body := JLogin "Login successful" token user |})
      end
  end.


(** logout of the later controller: the token goes into the Set of
    utils/tokenBlacklist.js.  [?.split(' ')[1]] and the [if (token)]
    that follows select the same tokens as [tokenOf]. *)
Definition logout (st : Store) (cx : Ctx) : Store * Response :=
  let st' :=
    match tokenOf (authorization cx) with
    | Some token => set_tokenBlacklist (λ s, {[token]} ∪ s) st
    | None => st
    end in
  (st', {| status := 200; body := JMessage "Logout successful" |}).

(** ** routes/userRoutes.js *)

(** POST /logout as the routes file declares it: an inline handler
    behind [authenticateToken] that pushes onto the array of the routes
    file. *)
Definition route_logout (st : Store) (cx : Ctx) : Store * Response :=
  authenticated st cx (λ _,
    match tokenOf (authorization cx) with
    | Some token =>
        (set_routeBlacklist (λ l, (l ++ [token])%list) st,
         {| status := 200; body := JMessage "Logout successful" |})
    | None => (st, {| status := 400; body := JMessage "Token required" |})
    end).

(** GET /profile *)
Definition route_profile (st : Store) (cx : Ctx) : Store * Response :=
  authenticated st cx (λ user, (st, {| status := 200; body := JUser user |})).

(** ** routes/courseRoutes.js *)

(** DELETE /admin/courses/:id *)
Definition route_delete_course (st : Store) (cx : Ctx) (id : IdParam)
    : Store * Response :=
  authorized [RoleAdmin] st cx (λ _,
    match findByIdAndDelete (courses st) id with
    | inl error => (st, {| status := 400; body := JErrorOf error |})
    | inr (None, _) => (st, {| status := 404; body := JError "Course not found" |})
    | inr (Some _, rest) =>
        (set_courses (λ _, rest) st,
         {| status := 200; body := JMessage "Course deleted successfully" |})
    end).

(** GET /courses/:id *)
Definition route_get_course (st : Store) (cx : Ctx) (id : IdParam)
    : Store * Response :=
  authenticated st cx (λ _,
    match findById (courses st) id with
    | inl error => (st, {| status := 400; body := JErrorOf error |})
    | inr found =>
        (st, {| status := 200;
                body := match found with Some c => JCourse c | None => JNull end |})
    end).

(** ** routes/lessonRoutes.js *)

Record LessonBody := {
  lb_title : option string;
  lb_description : option string;
  lb_courseId : option IdParam;
  lb_topics : list ObjectId;
  lb_content : option string }.

(** [new Lesson(req.body)] followed by [save()], under lessonSchema. *)
Definition saveLesson (st : Store) (b : LessonBody) : Exception + (Store * Lesson) :=
  match required (lb_title b), required (lb_description b), requiredId (lb_courseId b) with
  | Some title, Some description, Some courseId =>
      let lesson :=
        {| l_id := nextId st; l_title := title; l_description := description;
           l_courseId := courseId; l_topics := lb_topics b;
           l_content := lb_content b; l_v := 0%N |} in
      inr (set_lessons (insert (nextId st) lesson) (bump st), lesson)
  | _, _, _ => inl ValidationError
  end.

(** POST /lessons *)
Definition route_create_lesson (st : Store) (cx : Ctx) (b : LessonBody)
    : Store * Response :=
  authorized [RoleAdmin] st cx (λ _,
    match saveLesson st b with
    | inl error => (st, {| status := 400; body := JErrorOf error |})
    | inr (st', lesson) => (st', {| status := 201; body := JLesson lesson |})
    end).

(** GET /lessons/:id *)
Definition route_get_lesson (st : Store) (cx : Ctx) (id : IdParam)
    : Store * Response :=
  authenticated st cx (λ _,
    match findById (lessons st) id with
    | inl error => (st, {| status := 400; body := JErrorOf error |})
    | inr None => (st, {| status := 404; body := JError "Lesson not found" |})
    | inr (Some lesson) => (st, {| status := 200; body := JLesson lesson |})
    end).

(** DELETE /lessons/:id *)
Definition route_delete_lesson (st : Store) (cx : Ctx) (id : IdParam)
    : Store * Response :=
  authorized [RoleAdmin] st cx (λ _,
    match findByIdAndDelete (lessons st) id with
    | inl error => (st, {| status := 400; body := JErrorOf error |})
    | inr (None, _) => (st, {| status := 404; body := JError "Lesson not found" |})
    | inr (Some lesson, rest) =>
        (set_topics (deleteManyIn (l_topics lesson)) (set_lessons (λ _, rest) st),
         {| status := 200; body := JMessage "Lesson deleted successfully" |})
    end).

(** ** routes/topicRoutes.js *)

Record TopicBody := {
  tb_title : option string;
  tb_description : option string;
  tb_lessonId : option IdParam }.

(** [new Topic({ title, description, lessonId, image })] followed by
    [save()], under topicSchema. *)
Definition saveTopic (st : Store) (b : TopicBody) (image : option string)
    : Exception + (Store * Topic) :=
  match required (tb_title b), required (tb_description b), requiredId (tb_lessonId b) with
  | Some title, Some description, Some lessonId =>
      let topic :=
        {| t_id := nextId st; t_title := title; t_description := description;
           t_lessonId := lessonId; t_image := image |} in
      inr (set_topics (insert (nextId st) topic) (bump st), topic)
  | _, _, _ => inl ValidationError
  end.

(** [lesson.topics.push(id)] *)
Definition push_topic (id : ObjectId) (lesson : Lesson) : Lesson :=
  {| l_id := l_id lesson; l_title := l_title lesson;
     l_description := l_description lesson; l_courseId := l_courseId lesson;
     l_topics := (l_topics lesson ++ [id])%list;
     l_content := l_content lesson; l_v := l_v lesson |}.

(** [lesson.topics.pull(id)] *)
Definition pull_topic (id : ObjectId) (lesson : Lesson) : Lesson :=
  {| l_id := l_id lesson; l_title := l_title lesson;
     l_description := l_description lesson; l_courseId := l_courseId lesson;
     l_topics := filter (λ x, x ≠ id) (l_topics lesson);
     l_content := l_content lesson; l_v := l_v lesson |}.

(** [lesson.save()] on a lesson read from the store whose [topics]
    array has been pushed to or pulled from: the required paths are
    validated again, and the write raises the version key.  The third
    required path, [courseId], is set on every [Lesson] of this model. *)
Definition resaveLesson (lesson : Lesson) : Exception + Lesson :=
  match required (Some (l_title lesson)), required (Some (l_description lesson)) with
  | Some _, Some _ =>
      inr {| l_id := l_id lesson; l_title := l_title lesson;
             l_description := l_description lesson;
             l_courseId := l_courseId lesson; l_topics := l_topics lesson;
             l_content := l_content lesson; l_v := N.succ (l_v lesson) |}
  | _, _ => inl ValidationError
  end.

(** POST /admin/topics; [file] is [req.file.path] when an image came
    with the request.  The topic is saved first, the lesson is looked
    up afterwards; a lesson that fails its validation when it is saved
    again leaves the topic saved as well. *)
Definition route_create_topic (st : Store) (cx : Ctx) (b : TopicBody)
    (file : option string) : Store * Response :=
  authorized [RoleAdmin] st cx (λ _,
    match saveTopic st b file with
    | inl error => (st, {| status := 400; body := JErrorOf error |})
    | inr (st1, topic) =>
        match lessons st1 !! t_lessonId topic with
        | None => (st1, {| status := 404; body := JError "Lesson not found" |})
        | Some lesson =>
            match resaveLesson (push_topic (t_id topic) lesson) with
            | inl error => (st1, {| status := 400; body := JErrorOf error |})
            | inr saved =>
                (set_lessons (insert (t_lessonId topic) saved) st1,
                 {| status := 201; body := JTopic topic |})
            end
        end
    end).

(** GET /topics/:id *)
Definition route_get_topic (st : Store) (cx : Ctx) (id : IdParam)
    : Store * Response :=
  authenticated st cx (λ _,
    match findById (topics st) id with
    | inl error => (st, {| status := 400; body := JErrorOf error |})
    | inr None => (st, {| status := 404; body := JError "Topic not found" |})
    | inr (Some topic) => (st, {| status := 200; body := JTopic topic |})
    end).

(** DELETE /admin/topics/:id *)
Definition route_delete_topic (st : Store) (cx : Ctx) (id : IdParam)
    : Store * Response :=
  authorized [RoleAdmin] st cx (λ _,
    match findByIdAndDelete (topics st) id with
    | inl error => (st, {| status := 400; body := JErrorOf error |})
    | inr (None, _) => (st, {| status := 404; body := JError "Topic not found" |})
    | inr (Some topic, rest) =>
        let st1 := set_topics (λ _, rest) st in
        match lessons st1 !! t_lessonId topic with
        | None =>
            (st1, {| status := 200; body := JMessage "Topic deleted successfully" |})
        | Some lesson =>
            match resaveLesson (pull_topic (t_id topic) lesson) with
            | inl error => (st1, {| status := 400; body := JErrorOf error |})
            | inr saved =>
                (set_lessons (insert (t_lessonId topic) saved) st1,
                 {| status := 200; body := JMessage "Topic deleted successfully" |})
            end
        end
    end).

End Handlers.

(** ** A small instance of the external collaborators

    A token is the role letter, the subject id in unary, the expiry in
    unary and a key check, separated by dots; it is used to run the
    handlers on concrete requests. *)
Module Sample.

Fixpoint rep (c : ascii) (n : nat) (rest : string) : string :=
  match n with
  | O => rest
  | S n => String c (rep c n rest)
  end.

Fixpoint count_lead (c : ascii) (s : string) : nat :=
  match s with
  | String d r => if Ascii.eqb d c then S (count_lead c r) else O
  | EmptyString => O
  end.

Fixpoint drop_lead (c : ascii) (s : string) : string :=
  match s with
  | String d r => if Ascii.eqb d c then drop_lead c r else s
  | EmptyString => s
  end.

Definition role_letter (r : Role) : ascii :=
  match r with
  | RoleAdmin => "A"%char
  | RoleUser => "U"%char
  end.

Definition letter_role (c : ascii) : option Role :=
  if Ascii.eqb c "A" then Some RoleAdmin
  else if Ascii.eqb c "U" then Some RoleUser
  else None.

Definition key_check (secret : string) : string :=
  rep "k" (String.length secret) "".

Definition sign (p : Payload) (secret : string) (e t : Z) : string :=
  String (role_letter (p_role p))
    (rep "i" (N.to_nat (p_id p))
       (String "." (rep "e" (Z.to_nat (t + e)) (String "." (key_check secret))))).

Definition verify (token secret : string) (t : Z) : option Payload :=
  match token with
  | EmptyString => None
  | String c s1 =>
      match letter_role c, drop_lead "i" s1 with
      | Some role, String d1 s2 =>
          match drop_lead "e" s2 with
          | String d2 s3 =>
              if Ascii.eqb d1 "." && Ascii.eqb d2 "."
                 && String.eqb s3 (key_check secret)
                 && (t <? Z.of_nat (count_lead "e" s2))%Z
              then Some {| p_id := N.of_nat (count_lead "i" s1); p_role := role |}
              else None
          | EmptyString => None
          end
      | _, _ => None
      end
  end.

Definition externals : Externals :=
  {| JWT_SECRET := "s3cret";
     jwt_sign := sign;
     jwt_verify := verify;
     hashPassword := λ p, "h:" ++ p;
     comparePassword := λ u candidate,
       match candidate with
       | Some p => inr (String.eqb (u_password u) ("h:" ++ p))
       | None => inl CompareError   (* as bcrypt's compare on undefined *)
       end |}.

(** An administrator and an ordinary user, and a store holding them. *)
Definition admin : User :=
  {| u_id := 1%N; u_name := "Root"; u_email := "root@x.com";
     u_password := "h:r00t"; u_role := RoleAdmin; u_profilePhoto := None;
     u_phoneNumber := None; u_courses := []; u_knowledge := None |}.

Definition alice : User :=
  {| u_id := 2%N; u_name := "A"; u_email := "a@x.com";
     u_password := "h:p1"; u_role := RoleUser; u_profilePhoto := None;
     u_phoneNumber := None; u_courses := []; u_knowledge := None |}.

Definition base : Store :=
  {| users := {[ 1%N := admin; 2%N := alice ]}; courses := ∅; lessons := ∅;
     topics := ∅; tokenBlacklist := ∅; routeBlacklist := []; nextId := 3%N |}.

Definition bearer (u : User) (t : Z) : Ctx :=
  {| authorization :=
       Some ("Bearer " ++ sign {| p_id := u_id u; p_role := u_role u |} "s3cret" oneHour 0);
     now := t |}.

Definition as_admin : Ctx := bearer admin 10.

(** A lesson that lists no topic, and a topic that names that lesson:
    the state PUT /admin/topics/:id leaves behind when it moves a topic
    to another lesson, since it rewrites [lessonId] and no [topics]
    array, and the state topic-create leaves when it stops between its
    two saves. *)
Definition lonely_lesson : Lesson :=
  {| l_id := 10%N; l_title := "L"; l_description := "d"; l_courseId := 5%N;
     l_topics := []; l_content := None; l_v := 0%N |}.

Definition unlisted_topic : Topic :=
  {| t_id := 11%N; t_title := "T"; t_description := "d"; t_lessonId := 10%N;
     t_image := None |}.

Definition unlisted : Store :=
  set_topics (λ _, {[ 11%N := unlisted_topic ]})
    (set_lessons (λ _, {[ 10%N := lonely_lesson ]}) base).

Definition course5 : Course :=
  {| c_id := 5%N; c_title := "C"; c_description := "d"; c_instructor := "I";
     c_price := 10; c_image := None |}.

(** The same store with the course the lonely lesson belongs to. *)
Definition with_course : Store :=
  set_courses (λ _, {[ 5%N := course5 ]}) unlisted.

Definition lesson_body : LessonBody :=
  {| lb_title := Some "L"; lb_description := Some "d";
     lb_courseId := Some (IdOk 99%N); lb_topics := []; lb_content := None |}.

Definition topic_body : TopicBody :=
  {| tb_title := Some "T"; tb_description := Some "d";
     tb_lessonId := Some (IdOk 99%N) |}.

Definition signup_body : SignupBody :=
  {| sb_name := Some "A"; sb_email := Some "a@x.com"; sb_password := Some "p1";
     sb_role := None; sb_profilePhoto := None; sb_phoneNumber := None;
     sb_courses := []; sb_knowledge := None |}.




End Sample.

(** ** The claims of the specification that the handlers do not meet,
    as the specification words them *)

(** Deleting a lesson removes every topic whose [lessonId] is that
    lesson, listed in the lesson's [topics] array or not: a later fetch
    of such a topic is answered 404. *)
Definition lesson_delete_removes_by_lessonId (E : Externals) : Prop :=
  ∀ (st st' : Store) (cx : Ctx) (lid tid : ObjectId) (r : Response) (topic : Topic),
    is_Some (lessons st !! lid) →
    route_delete_lesson st cx (IdOk lid) = (st', r) →
    status r = 200 →
    topics st !! tid = Some topic →
    t_lessonId topic = lid →
    status (route_get_topic st' cx (IdOk tid)).2 = 404.

(** Every lesson that lesson-create accepts refers to a course that
    exists when the lesson is created. *)
Definition lesson_create_checks_course (E : Externals) : Prop :=
  ∀ (st st' : Store) (cx : Ctx) (b : LessonBody) (r : Response),
    route_create_lesson st cx b = (st', r) →
    status r = 201 →
    ∃ cid, lb_courseId b = Some (IdOk cid) ∧ is_Some (courses st !! cid).


(** * The remaining handlers *)

(** ** Replies that are not a single JSON object *)

(** A course as GET /courses shows it: the whole document to an
    administrator, [_id], title and description to anyone else. *)
Inductive CourseView :=
  | FullCourse (c : Course)
  | TitleDescription (id : ObjectId) (title description : string).

(** What a route sends back: one of the objects above, an array of
    documents, [{ message, course }], or the error that the upload
    middleware hands to Express, which no handler of the repository
    catches. *)
Inductive Reply :=
  | Single (r : Response)
  | UserList (l : list User)
  | CourseList (l : list CourseView)
  | LessonList (l : list Lesson)
  | TopicList (l : list Topic)
  | CourseCreated (m : string) (c : Course)
  | UploadError (m : string).

(** The status line: arrays go out with 200, the controller's
    [{ message, course }] with 201, an error left to Express with 500. *)
Definition reply_status (r : Reply) : Z :=
  match r with
  | Single r => status r
  | CourseCreated _ _ => 201
  | UploadError _ => 500
  | _ => 200
  end.

(** A Number path of a body: the value casts to a number or it does
    not.  Only integral numbers are carried, [NumOk z] standing for the
    double [z]; every integer of magnitude at most 2^53 is one. *)
Inductive NumParam :=
  | NumOk (z : Z)
  | NumMalformed.

(** The integers that a JavaScript Number holds exactly. *)
Definition safe_integer (z : Z) : Prop := (- 2 ^ 53 ≤ z ≤ 2 ^ 53)%Z.

(** The [required] validator on a Number path, after the cast. *)
Definition requiredNum (o : option NumParam) : option Z :=
  match o with
  | Some (NumOk z) => Some z
  | _ => None
  end.

(** [Model.find()]: every document of the collection; the order of the
    list is not that of the store and nothing below depends on it. *)
Definition find_all {A : Type} (m : gmap ObjectId A) : list A :=
  (map_to_list m).*2.

(** [req.file] as multer leaves it. *)
Record Upload := { up_mimetype : string; up_path : string }.

Record CourseBody := {
  cb_title : option string;
  cb_description : option string;
  cb_instructor : option string;
  cb_price : option NumParam }.

(** The body the course controller destructures. *)
Record CourseCtlBody := {
  cc_title : option string;
  cc_description : option string;
  cc_author : option string;
  cc_price : option NumParam;
  cc_category : option string }.

Section MoreHandlers.
Context {E : Externals}.

(** ** utils/tokenBlacklist.js *)

Definition tokenBlacklist_add (token : string) (st : Store) : Store :=
  set_tokenBlacklist (λ s, {[token]} ∪ s) st.

Definition isBlacklisted (token : string) (st : Store) : bool :=
  bool_decide (token ∈ tokenBlacklist st).

(** ** The gate in front of a route that sends a [Reply] *)

Definition authenticated_reply (st : Store) (cx : Ctx)
    (handler : User → Store * Reply) : Store * Reply :=
  match authenticateToken st cx with
  | Respond r => (st, Single r)
  | Next user => handler user
  end.

Definition authorized_reply (roles : list Role) (st : Store) (cx : Ctx)
    (handler : User → Store * Reply) : Store * Reply :=
  authenticated_reply st cx (λ user,
    match authorizeRoles roles user with
    | Respond r => (st, Single r)
    | Next user => handler user
    end).

(** ** controllers/userController.js, routes/userRoutes.js *)

Definition getAllUsers (st : Store) : Store * Reply :=
  (st, UserList (find_all (users st))).

(** GET /users *)
Definition route_get_users (st : Store) (cx : Ctx) : Store * Reply :=
  authorized_reply [RoleAdmin] st cx (λ _, getAllUsers st).

(** ** models/course.js, routes/courseRoutes.js *)

(** [new Course({...}).save()], under courseSchema. *)
Definition saveCourse (st : Store) (title description instructor : option string)
    (price : option NumParam) (image : option string)
    : Exception + (Store * Course) :=
  match required title, required description, required instructor,
        requiredNum price with
  | Some t, Some d, Some i, Some p =>
      let course :=
        {| c_id := nextId st; c_title := t; c_description := d;
           c_instructor := i; c_price := p; c_image := image |} in
      inr (set_courses (insert (nextId st) course) (bump st), course)
  | _, _, _, _ => inl ValidationError
  end.

(** [fileFilter]: only a file whose mimetype starts with "image". *)
Definition fileFilter (file : Upload) : bool :=
  String.prefix "image" (up_mimetype file).

(** POST /admin/courses, as first registered: gate, role, upload, then
    the handler.  A file that [fileFilter] turns down stops the request
    in the upload middleware. *)
Definition route_create_course (st : Store) (cx : Ctx) (b : CourseBody)
    (file : option Upload) : Store * Reply :=
  authorized_reply [RoleAdmin] st cx (λ _,
    let handler (image : option string) : Store * Reply :=
      match saveCourse st (cb_title b) (cb_description b) (cb_instructor b)
              (cb_price b) image with
      | inl error => (st, Single {| status := 400; body := JErrorOf error |})
      | inr (st', newCourse) =>
          (st', Single {| status := 201; body := JCourse newCourse |})
      end in
    match file with
    | None => handler None
    | Some f =>
        if fileFilter f then handler (Some (up_path f))
        else (st, UploadError "Not an image! Please upload only images.")
    end).

(** GET /courses *)
Definition route_list_courses (st : Store) (cx : Ctx) : Store * Reply :=
  authenticated_reply st cx (λ user,
    if decide (u_role user = RoleAdmin) then
      (st, CourseList (FullCourse <$> find_all (courses st)))
    else
      (st, CourseList
             ((λ c, TitleDescription (c_id c) (c_title c) (c_description c))
                <$> find_all (courses st)))).

(** ** controllers/courseController.js *)

(** [createCourse]: the document is built from title, description,
    author, price and category; courseSchema has neither an [author]
    nor a [category] path, and [instructor] is not supplied. *)
Definition createCourse (st : Store) (b : CourseCtlBody) : Store * Reply :=
  match saveCourse st (cc_title b) (cc_description b) None (cc_price b) None with
  | inl err => (st, Single {| status := 400; body := JMessageOf err |})
  | inr (st', newCourse) => (st', CourseCreated "Course created successfully" newCourse)
  end.

Definition listCourses (st : Store) : Store * Reply :=
  (st, CourseList (FullCourse <$> find_all (courses st))).

(** ** routes/lessonRoutes.js *)

(** GET /lessons *)
Definition route_list_lessons (st : Store) (cx : Ctx) : Store * Reply :=
  authenticated_reply st cx (λ _, (st, LessonList (find_all (lessons st)))).

(** [.populate("topics")]: each listed id is replaced by the topic it
    names; an id that names no topic leaves no entry. *)
Definition populate_topics (st : Store) (ids : list ObjectId) : list Topic :=
  omap (λ i, topics st !! i) ids.

(** GET /lessons/:id/topics *)
Definition route_get_lesson_topics (st : Store) (cx : Ctx) (id : IdParam)
    : Store * Reply :=
  authenticated_reply st cx (λ _,
    match findById (lessons st) id with
    | inl error => (st, Single {| status := 400; body := JErrorOf error |})
    | inr None => (st, Single {| status := 404; body := JError "Lesson not found" |})
    | inr (Some lesson) => (st, TopicList (populate_topics st (l_topics lesson)))
    end).

(** [Lesson.find({ courseId })] *)
Definition find_lessons_by_course (st : Store) (courseId : ObjectId) : list Lesson :=
  filter (λ l, l_courseId l = courseId) (find_all (lessons st)).

(** GET /lessons/course/:courseId *)
Definition route_lessons_by_course (st : Store) (cx : Ctx) (courseId : IdParam)
    : Store * Reply :=
  authenticated_reply st cx (λ _,
    match courseId with
    | IdMalformed => (st, Single {| status := 400; body := JErrorOf CastError |})
    | IdOk cid =>
        match find_lessons_by_course st cid with
        | [] => (st, Single {| status := 404;
                               body := JError "No lessons found for this course" |})
        | ls => (st, LessonList ls)
        end
    end).

(** ** controllers/lessonController.js *)

(** [deleteLesson]: the lesson alone. *)
Definition deleteLesson (st : Store) (id : IdParam) : Store * Response :=
  match findByIdAndDelete (lessons st) id with
  | inl error => (st, {| status := 400; body := JErrorOf error |})
  | inr (None, _) => (st, {| status := 404; body := JError "Lesson not found" |})
  | inr (Some _, rest) =>
      (set_lessons (λ _, rest) st,
       {| status := 200; body := JMessage "Lesson deleted successfully" |})
  end.

(** ** routes/topicRoutes.js *)

(** GET /topics *)
Definition route_list_topics (st : Store) (cx : Ctx) : Store * Reply :=
  authenticated_reply st cx (λ _, (st, TopicList (find_all (topics st)))).

(** ** server.js: the routers mounted under /api *)

Inductive Request :=
  | PostSignup (t : Z) (b : SignupBody)
  | PostLogin (t : Z) (b : LoginBody)
  | PostLogout (cx : Ctx)
  | GetProfile (cx : Ctx)
  | GetUsers (cx : Ctx)
  | PostAdminCourses (cx : Ctx) (b : CourseBody) (file : option Upload)
  | DeleteAdminCourse (cx : Ctx) (id : IdParam)
  | GetCourses (cx : Ctx)
  | GetCourse (cx : Ctx) (id : IdParam)
  | PostLessons (cx : Ctx) (b : LessonBody)
  | GetLessons (cx : Ctx)
  | GetLesson (cx : Ctx) (id : IdParam)
  | DeleteLessonReq (cx : Ctx) (id : IdParam)
  | GetLessonTopics (cx : Ctx) (id : IdParam)
  | GetLessonsByCourse (cx : Ctx) (courseId : IdParam)
  | PostAdminTopics (cx : Ctx) (b : TopicBody) (file : option string)
  | GetTopics (cx : Ctx)
  | GetTopic (cx : Ctx) (id : IdParam)
  | DeleteAdminTopic (cx : Ctx) (id : IdParam).

Definition single (p : Store * Response) : Store * Reply := (p.1, Single p.2).

(** The route table of the four routers, for the routes embedded above;
    signup and login are those of the later controller. *)
Definition serve (st : Store) (q : Request) : Store * Reply :=
  match q with
  | PostSignup t b => single (signup st t b)
  | PostLogin t b => single (login st t b)
  | PostLogout cx => single (route_logout st cx)
  | GetProfile cx => single (route_profile st cx)
  | GetUsers cx => route_get_users st cx
  | PostAdminCourses cx b file => route_create_course st cx b file
  | DeleteAdminCourse cx id => single (route_delete_course st cx id)
  | GetCourses cx => route_list_courses st cx
  | GetCourse cx id => single (route_get_course st cx id)
  | PostLessons cx b => single (route_create_lesson st cx b)
  | GetLessons cx => route_list_lessons st cx
  | GetLesson cx id => single (route_get_lesson st cx id)
  | DeleteLessonReq cx id => single (route_delete_lesson st cx id)
  | GetLessonTopics cx id => route_get_lesson_topics st cx id
  | GetLessonsByCourse cx courseId => route_lessons_by_course st cx courseId
  | PostAdminTopics cx b file => single (route_create_topic st cx b file)
  | GetTopics cx => route_list_topics st cx
  | GetTopic cx id => single (route_get_topic st cx id)
  | DeleteAdminTopic cx id => single (route_delete_topic st cx id)
  end.

(** The store after a sequence of requests. *)
Definition run (st : Store) (qs : list Request) : Store :=
  foldl (λ s q, (serve s q).1) st qs.

End MoreHandlers.

(** The request context of a route behind [authenticateToken]; signup
    and login have none. *)
Definition protected_ctx (q : Request) : option Ctx :=
  match q with
  | PostSignup _ _ | PostLogin _ _ => None
  | PostLogout cx | GetProfile cx | GetUsers cx | PostAdminCourses cx _ _
  | DeleteAdminCourse cx _ | GetCourses cx | GetCourse cx _ | PostLessons cx _
  | GetLessons cx | GetLesson cx _ | DeleteLessonReq cx _ | GetLessonTopics cx _
  | GetLessonsByCourse cx _ | PostAdminTopics cx _ _ | GetTopics cx
  | GetTopic cx _ | DeleteAdminTopic cx _ => Some cx
  end.

(** The routes registered with [authorizeRoles("admin")]. *)
Definition admin_only (q : Request) : bool :=
  match q with
  | GetUsers _ | PostAdminCourses _ _ _ | DeleteAdminCourse _ _ | PostLessons _ _
  | DeleteLessonReq _ _ | PostAdminTopics _ _ _ | DeleteAdminTopic _ _ => true
  | _ => false
  end.

(** The GET routes and login: the requests whose handlers write
    nothing. *)
Definition read_only (q : Request) : bool :=
  match q with
  | PostLogin _ _ | GetProfile _ | GetUsers _ | GetCourses _ | GetCourse _ _
  | GetLessons _ | GetLesson _ _ | GetLessonTopics _ _ | GetLessonsByCourse _ _
  | GetTopics _ | GetTopic _ _ => true
  | _ => false
  end.

(** The [:id] or [:courseId] of the path, for the routes that have
    one. *)
Definition path_id (q : Request) : option IdParam :=
  match q with
  | DeleteAdminCourse _ id | GetCourse _ id | GetLesson _ id
  | DeleteLessonReq _ id | GetLessonTopics _ id | GetLessonsByCourse _ id
  | GetTopic _ id | DeleteAdminTopic _ id => Some id
  | _ => None
  end.

(** ** Invariants of the store *)

(** Every document sits under its own [_id]. *)
Definition ids_match (st : Store) : Prop :=
  (∀ i u, users st !! i = Some u → u_id u = i)
  ∧ (∀ i c, courses st !! i = Some c → c_id c = i)
  ∧ (∀ i l, lessons st !! i = Some l → l_id l = i)
  ∧ (∀ i t, topics st !! i = Some t → t_id t = i).

(** No two users share an email. *)
Definition unique_emails (st : Store) : Prop :=
  ∀ i j u v,
    users st !! i = Some u → users st !! j = Some v →
    u_email u = u_email v → i = j.

Definition consistent (st : Store) : Prop :=
  ids_below st ∧ ids_match st ∧ unique_emails st.

(** What one request can do to the store: nothing, a push onto the
    array of the routes file, one document saved under the next id, one
    document removed, and for topics the same together with the update
    of the owning lesson or, for a lesson, with the removal of the
    topics it lists. *)
Inductive effect (st : Store) : Store → Prop :=
  | eff_none : effect st st
  | eff_pushed (token : string) :
      effect st (set_routeBlacklist (λ l, (l ++ [token])%list) st)
  | eff_user (u : User) :
      u_id u = nextId st →
      (∀ i v, users st !! i = Some v → u_email v ≠ u_email u) →
      effect st (set_users (insert (nextId st) u) (bump st))
  | eff_course (c : Course) :
      c_id c = nextId st →
      effect st (set_courses (insert (nextId st) c) (bump st))
  | eff_course_gone (i : ObjectId) :
      effect st (set_courses (λ _, delete i (courses st)) st)
  | eff_lesson (l : Lesson) :
      l_id l = nextId st →
      effect st (set_lessons (insert (nextId st) l) (bump st))
  | eff_lesson_gone (i : ObjectId) (ids : list ObjectId) :
      effect st (set_topics (deleteManyIn ids)
                   (set_lessons (λ _, delete i (lessons st)) st))
  | eff_topic (t : Topic) :
      t_id t = nextId st →
      effect st (set_topics (insert (nextId st) t) (bump st))
  | eff_topic_linked (t : Topic) (lid : ObjectId) (lesson saved : Lesson) :
      t_id t = nextId st →
      lessons st !! lid = Some lesson →
      l_id saved = l_id lesson →
      effect st (set_lessons (insert lid saved)
                   (set_topics (insert (nextId st) t) (bump st)))
  | eff_topic_gone (i : ObjectId) :
      effect st (set_topics (λ _, delete i (topics st)) st)
  | eff_topic_unlinked (i lid : ObjectId) (lesson saved : Lesson) :
      lessons st !! lid = Some lesson →
      l_id saved = l_id lesson →
      effect st (set_lessons (insert lid saved)
                   (set_topics (λ _, delete i (topics st)) st)).

(** ** Further contracts of the external collaborators *)

(** The password methods of the User model agree: the hash of a
    password compares equal to that password. *)
Class PasswordSound (E : Externals) : Prop := {
  compare_hash : ∀ u p,
    u_password u = hashPassword p → comparePassword u (Some p) = inr true }.

(** jsonwebtoken turns an expired token down. *)
Class JwtExpiry (E : Externals) : Prop := {
  jwt_verify_expired : ∀ p e t t',
    (0 ≤ t)%Z → (0 ≤ e)%Z → (t + e ≤ t')%Z →
    jwt_verify (jwt_sign p JWT_SECRET e t) JWT_SECRET t' = None }.

(** [pieces.join(' ')], the inverse of [split(' ')]. *)
Fixpoint join_space (pieces : list string) : string :=
  match pieces with
  | [] => ""
  | [w] => w
  | w :: ws => w ++ String space (join_space ws)
  end.

(** More sample data: a course, a lesson of it with one topic. *)
Module Demo.

Definition course : Course :=
  {| c_id := 3%N; c_title := "Rocq"; c_description := "proofs";
     c_instructor := "I"; c_price := 10; c_image := None |}.

Definition lesson : Lesson :=
  {| l_id := 4%N; l_title := "L"; l_description := "d"; l_courseId := 3%N;
     l_topics := [5%N]; l_content := None; l_v := 0%N |}.

Definition topic : Topic :=
  {| t_id := 5%N; t_title := "T"; t_description := "d"; t_lessonId := 4%N;
     t_image := None |}.

Definition store : Store :=
  {| users := {[ 1%N := Sample.admin; 2%N := Sample.alice ]};
     courses := {[ 3%N := course ]}; lessons := {[ 4%N := lesson ]};
     topics := {[ 5%N := topic ]}; tokenBlacklist := ∅; routeBlacklist := [];
     nextId := 6%N |}.



Definition as_alice : Ctx := Sample.bearer Sample.alice 10.

Definition course_body : CourseBody :=
  {| cb_title := Some "C"; cb_description := Some "d";
     cb_instructor := Some "I"; cb_price := Some (NumOk 5) |}.

Definition topic_body : TopicBody :=
  {| tb_title := Some "T2"; tb_description := Some "d";
     tb_lessonId := Some (IdOk 4%N) |}.

Definition picture : Upload :=
  {| up_mimetype := "image/png"; up_path := "uploads/1.png" |}.

Definition document : Upload :=
  {| up_mimetype := "application/pdf"; up_path := "uploads/1.pdf" |}.

Definition login_body : LoginBody :=
  {| lg_email := Some "a@x.com"; lg_password := Some "p1" |}.

End Demo.

(** * Facts *)

(** ** Saving a lesson again *)

Lemma resaveLesson_inr (lesson saved : Lesson) :
  resaveLesson lesson = inr saved →
  saved = {| l_id := l_id lesson; l_title := l_title lesson;
             l_description := l_description lesson;
             l_courseId := l_courseId lesson; l_topics := l_topics lesson;
             l_content := l_content lesson; l_v := N.succ (l_v lesson) |}.
Proof.
  unfold resaveLesson.
  destruct (required (Some (l_title lesson))); [|done].
  destruct (required (Some (l_description lesson))); [|done].
  by intros [= <-].
Qed.




(** ** Strings and tokens *)

Lemma split_space_free (t : string) :
  space_free t = true → split_space t = [t].
Proof.
  induction t as [|c r IH]; simpl; [done|].
  intros [Hc Hr]%andb_prop.
  apply negb_true_iff in Hc. rewrite Hc, (IH Hr). done.
Qed.

Lemma tokenOf_bearer (t : string) :
  compact t → tokenOf (Some ("Bearer " ++ t)) = Some t.
Proof.
  intros [Hne Hfree]. unfold tokenOf.
  change (split_space ("Bearer " ++ t))
    with (match split_space (String space t) with
          | [] => ["Bearer"]
          | w :: ws => ("Bearer" ++ w) :: ws
          end).
  change (split_space (String space t)) with (EmptyString :: split_space t).
  rewrite (split_space_free t Hfree). simpl.
  apply String.eqb_neq in Hne. by rewrite Hne.
Qed.

(** A token that [tokenOf] extracts is never the empty string. *)
Lemma tokenOf_nonempty (h : option string) (t : string) :
  tokenOf h = Some t → t ≠ "".
Proof.
  unfold tokenOf. destruct h as [h|]; [|done].
  destruct (split_space h !! 1%nat) as [w|]; [|done].
  destruct (String.eqb w "") eqn:Hw; [done|].
  intros [= <-]. by apply String.eqb_neq.
Qed.

(** ** The small instance meets the jsonwebtoken contract *)

Lemma count_lead_rep (c d : ascii) (n : nat) (rest : string) :
  Ascii.eqb d c = false →
  Sample.count_lead c (Sample.rep c n (String d rest)) = n.
Proof.
  intros Hd. induction n as [|n IH]; simpl.
  - by rewrite Hd.
  - by rewrite Ascii.eqb_refl, IH.
Qed.

Lemma drop_lead_rep (c d : ascii) (n : nat) (rest : string) :
  Ascii.eqb d c = false →
  Sample.drop_lead c (Sample.rep c n (String d rest)) = String d rest.
Proof.
  intros Hd. induction n as [|n IH]; simpl.
  - by rewrite Hd.
  - by rewrite Ascii.eqb_refl.
Qed.

Lemma space_free_rep (c : ascii) (n : nat) (rest : string) :
  Ascii.eqb c space = false →
  space_free rest = true →
  space_free (Sample.rep c n rest) = true.
Proof.
  intros Hc Hrest. induction n as [|n IH]; simpl; [done|].
  by rewrite Hc, IH.
Qed.

Lemma sample_verify_sign (p : Payload) (secret : string) (e t t' : Z) :
  t' < t + e → Sample.verify (Sample.sign p secret e t) secret t' = Some p.
Proof.
  intros Ht. destruct p as [id role]. unfold Sample.sign, Sample.verify. simpl.
  assert (Sample.letter_role (Sample.role_letter role) = Some role) as ->
    by (by destruct role).
  rewrite (drop_lead_rep "i" "." _ _ eq_refl).
  rewrite (drop_lead_rep "e" "." _ _ eq_refl).
  rewrite (count_lead_rep "i" "." _ _ eq_refl).
  rewrite (count_lead_rep "e" "." _ _ eq_refl).
  rewrite String.eqb_refl, N2Nat.id. simpl.
  destruct (Z.ltb_spec t' (Z.of_nat (Z.to_nat (t + e)))) as [_|Hge]; [done|lia].
Qed.

Lemma sample_sound : JwtSound Sample.externals.
Proof.
  split.
  - intros p e t t' [_ Ht]. by apply sample_verify_sign.
  - intros p s e t. split; [done|].
    unfold jwt_sign, Sample.externals, Sample.sign.
    assert (space_free (Sample.key_check s) = true) as Hk
      by (by apply space_free_rep).
    cbn [space_free]. rewrite andb_true_iff. split; [by destruct (p_role p)|].
    apply space_free_rep; [done|]. cbn [space_free].
    rewrite andb_true_iff. split; [done|]. by apply space_free_rep.
Qed.

(** ** The auth gate *)

Lemma authenticated_next `{E : Externals} (st : Store) (cx : Ctx) (u : User)
    (handler : User → Store * Response) :
  authenticateToken st cx = Next u →
  authenticated st cx handler = handler u.
Proof. intros H. unfold authenticated. by rewrite H. Qed.

Lemma authenticated_respond `{E : Externals} (st : Store) (cx : Ctx)
    (r : Response) (handler : User → Store * Response) :
  authenticateToken st cx = Respond r →
  authenticated st cx handler = (st, r).
Proof. intros H. unfold authenticated. by rewrite H. Qed.

Lemma authorized_admin `{E : Externals} (st : Store) (cx : Ctx) (u : User)
    (handler : User → Store * Response) :
  authenticateToken st cx = Next u →
  u_role u = RoleAdmin →
  authorized [RoleAdmin] st cx handler = handler u.
Proof.
  intros Hu Hrole. unfold authorized. rewrite (authenticated_next _ _ u) by done.
  unfold authorizeRoles. rewrite Hrole.
  destruct (decide (RoleAdmin ∈ [RoleAdmin])) as [_|Hn]; [done|].
  destruct Hn. apply list_elem_of_singleton. done.
Qed.

(** The gate reads the users and the Set of revoked tokens only. *)
Lemma authenticateToken_ext `{E : Externals} (st st' : Store) (cx : Ctx) :
  users st' = users st →
  tokenBlacklist st' = tokenBlacklist st →
  authenticateToken st' cx = authenticateToken st cx.
Proof. intros Hu Hb. unfold authenticateToken. by rewrite Hu, Hb. Qed.

Lemma gate_blacklisted `{E : Externals} (st : Store) (cx : Ctx) (token : string) :
  tokenOf (authorization cx) = Some token →
  token ∈ tokenBlacklist st →
  authenticateToken st cx =
    Respond {| status := 403;
               body := JMessage "Token is blacklisted. Please log in again." |}.
Proof. intros Ht Hin. unfold authenticateToken. by rewrite Ht, decide_True. Qed.

Lemma gate_respond_status `{E : Externals} (st : Store) (cx : Ctx) (r : Response) :
  authenticateToken st cx = Respond r →
  status r = 401 ∨ status r = 403 ∨ status r = 404.
Proof.
  unfold authenticateToken.
  destruct (tokenOf (authorization cx)) as [token|]; [|intros [= <-]; auto].
  destruct (decide (token ∈ tokenBlacklist st)); [intros [= <-]; auto|].
  destruct (jwt_verify token JWT_SECRET (now cx)) as [payload|];
    [|intros [= <-]; auto].
  destruct (users st !! p_id payload); [done|intros [= <-]; auto].
Qed.

(** C1: the authenticate stage answers 401 when the header carries no
    token; otherwise 403 when the token is in the blacklist, whatever
    verification would say; otherwise 403 when verification fails;
    otherwise 404 when the subject id resolves to no user; otherwise it
    attaches the user record and hands over to the handler.  In the four
    failing cases the handler does not run and the store is unchanged. *)
Theorem authenticateToken_outcomes `{E : Externals} (st : Store) (cx : Ctx) :
  (tokenOf (authorization cx) = None →
     authenticateToken st cx =
       Respond {| status := 401; body := JMessage "Access denied. No token provided." |})
  ∧ (∀ token,
       tokenOf (authorization cx) = Some token →
       token ∈ tokenBlacklist st →
       authenticateToken st cx =
         Respond {| status := 403;
                    body := JMessage "Token is blacklisted. Please log in again." |})
  ∧ (∀ token,
       tokenOf (authorization cx) = Some token →
       token ∉ tokenBlacklist st →
       jwt_verify token JWT_SECRET (now cx) = None →
       authenticateToken st cx =
         Respond {| status := 403; body := JMessage "Invalid token." |})
  ∧ (∀ token payload,
       tokenOf (authorization cx) = Some token →
       token ∉ tokenBlacklist st →
       jwt_verify token JWT_SECRET (now cx) = Some payload →
       users st !! p_id payload = None →
       authenticateToken st cx =
         Respond {| status := 404; body := JMessage "User not found." |})
  ∧ (∀ token payload dbUser,
       tokenOf (authorization cx) = Some token →
       token ∉ tokenBlacklist st →
       jwt_verify token JWT_SECRET (now cx) = Some payload →
       users st !! p_id payload = Some dbUser →
       authenticateToken st cx = Next dbUser
       ∧ ∀ handler, authenticated st cx handler = handler dbUser)
  ∧ (∀ r handler,
       authenticateToken st cx = Respond r →
       authenticated st cx handler = (st, r)
       ∧ (status r = 401 ∨ status r = 403 ∨ status r = 404)).
Proof.
  unfold authenticated, authenticateToken.
  split; [by intros ->|].
  split; [intros token -> Hin; by rewrite decide_True|].
  split; [intros token -> Hnin Hv; by rewrite decide_False, Hv|].
  split; [intros token payload -> Hnin Hv Hu; by rewrite decide_False, Hv, Hu|].
  split.
  - intros token payload dbUser -> Hnin Hv Hu.
    rewrite decide_False, Hv, Hu by done. done.
  - intros r handler Hr. split; [by rewrite Hr|].
    by apply (gate_respond_status st cx).
Qed.

(** At the store with the two users, the token of the ordinary user is
    accepted, and the same token is answered 403 once the Set of revoked
    tokens holds it, although it still verifies. *)
Lemma authenticateToken_outcomes_witness :
  @authenticateToken Sample.externals Sample.base (Sample.bearer Sample.alice 10)
    = Next Sample.alice
  ∧ @authenticateToken Sample.externals (logout Sample.base (Sample.bearer Sample.alice 10)).1
      (Sample.bearer Sample.alice 10)
    = Respond {| status := 403;
                 body := JMessage "Token is blacklisted. Please log in again." |}.
Proof.
  split.
  - refine (proj1 (proj1 (proj2 (proj2 (proj2 (proj2
      (@authenticateToken_outcomes Sample.externals Sample.base
         (Sample.bearer Sample.alice 10))))))
      (Sample.sign {| p_id := 2%N; p_role := RoleUser |} "s3cret" oneHour 0)
      {| p_id := 2%N; p_role := RoleUser |} Sample.alice _ _ _ _)).
    + vm_compute. reflexivity.
    + apply not_elem_of_empty.
    + vm_compute. reflexivity.
    + vm_compute. reflexivity.
  - refine (proj1 (proj2
      (@authenticateToken_outcomes Sample.externals
         (logout Sample.base (Sample.bearer Sample.alice 10)).1
         (Sample.bearer Sample.alice 10)))
      (Sample.sign {| p_id := 2%N; p_role := RoleUser |} "s3cret" oneHour 0) _ _).
    + vm_compute. reflexivity.
    + apply elem_of_union_l, elem_of_singleton. vm_compute. reflexivity.
Defined.

(** The blacklist test does not depend on the verifier: two
    installations that differ in their jsonwebtoken give the same
    answer to a revoked token. *)
Lemma blacklist_before_verify (E1 E2 : Externals) (st : Store) (cx : Ctx)
    (token : string) :
  tokenOf (authorization cx) = Some token →
  token ∈ tokenBlacklist st →
  @authenticateToken E1 st cx = @authenticateToken E2 st cx.
Proof.
  intros Ht Hin.
  by rewrite (@gate_blacklisted E1 st cx token), (@gate_blacklisted E2 st cx token).
Qed.

(** ** Logout *)

(** The controller's logout puts the token where the gate looks. *)
Lemma logout_revokes `{E : Externals} (st : Store) (cx cx' : Ctx) (token : string) :
  tokenOf (authorization cx) = Some token →
  tokenOf (authorization cx') = Some token →
  (logout st cx).2 = {| status := 200; body := JMessage "Logout successful" |}
  ∧ authenticateToken (logout st cx).1 cx' =
      Respond {| status := 403;
                 body := JMessage "Token is blacklisted. Please log in again." |}.
Proof.
  intros Ht Ht'. split; [done|].
  apply (gate_blacklisted _ _ token Ht'). unfold logout. rewrite Ht. simpl.
  set_solver.
Qed.

(** C2, on the route as declared: after POST /logout has answered 200
    to a request whose token the gate accepts, the gate answers every
    request exactly as it did before, so GET /profile with the same
    token is still answered 200 with the user record, not 403.  The
    handler pushes the token onto the array of the routes file and
    leaves the Set of revoked tokens as it was. *)
Theorem route_logout_token_still_accepted `{E : Externals}
    (st : Store) (cx : Ctx) (u : User) :
  authenticateToken st cx = Next u →
  ∃ st',
    route_logout st cx =
      (st', {| status := 200; body := JMessage "Logout successful" |})
    ∧ tokenBlacklist st' = tokenBlacklist st
    ∧ (∀ cx', authenticateToken st' cx' = authenticateToken st cx')
    ∧ route_profile st' cx = (st', {| status := 200; body := JUser u |}).
Proof.
  intros Hu. unfold route_logout. rewrite (authenticated_next _ _ u) by done.
  destruct (tokenOf (authorization cx)) as [token|] eqn:Ht.
  - eexists. split; [reflexivity|]. split; [done|].
    assert (∀ cx', authenticateToken
              (set_routeBlacklist (λ l, (l ++ [token])%list) st) cx'
            = authenticateToken st cx') as Hsame
      by (intros cx'; by apply authenticateToken_ext).
    split; [done|]. unfold route_profile.
    rewrite (authenticated_next _ _ u); [done|]. by rewrite Hsame.
  - unfold authenticateToken in Hu. by rewrite Ht in Hu.
Qed.

(** At the store with the two users: the token of the ordinary user is
    accepted, POST /logout answers 200, and GET /profile with the same
    token still answers 200 with the user record. *)
Lemma route_logout_token_still_accepted_witness :
  @authenticateToken Sample.externals Sample.base (Sample.bearer Sample.alice 10)
    = Next Sample.alice
  ∧ ∃ st',
      @route_logout Sample.externals Sample.base (Sample.bearer Sample.alice 10) =
        (st', {| status := 200; body := JMessage "Logout successful" |})
      ∧ tokenBlacklist st' = tokenBlacklist Sample.base
      ∧ (∀ cx', @authenticateToken Sample.externals st' cx'
                = @authenticateToken Sample.externals Sample.base cx')
      ∧ @route_profile Sample.externals st' (Sample.bearer Sample.alice 10) =
          (st', {| status := 200; body := JUser Sample.alice |}).
Proof.
  assert (@authenticateToken Sample.externals Sample.base (Sample.bearer Sample.alice 10)
          = Next Sample.alice) as H by (vm_compute; reflexivity).
  split; [exact H|].
  exact (@route_logout_token_still_accepted Sample.externals Sample.base
           (Sample.bearer Sample.alice 10) Sample.alice H).
Defined.

(** ** Fresh ids *)

Lemma ids_below_empty : ids_below emptyStore.
Proof. intros i _. unfold emptyStore. simpl. by rewrite !lookup_empty. Qed.

(** A store that holds no more ids than another above its own
    [nextId], which is not smaller, inherits the invariant. *)
Lemma ids_below_mono (st st' : Store) :
  (nextId st ≤ nextId st')%N →
  (∀ i, (nextId st' ≤ i)%N → users st !! i = None → users st' !! i = None) →
  (∀ i, (nextId st' ≤ i)%N → courses st !! i = None → courses st' !! i = None) →
  (∀ i, (nextId st' ≤ i)%N → lessons st !! i = None → lessons st' !! i = None) →
  (∀ i, (nextId st' ≤ i)%N → topics st !! i = None → topics st' !! i = None) →
  ids_below st → ids_below st'.
Proof.
  intros Hle Hu Hc Hl Ht Hinv i Hi.
  destruct (Hinv i) as (Hu0 & Hc0 & Hl0 & Ht0); [lia|]. auto.
Qed.

Lemma ids_below_known {A : Type} (st : Store) (m : gmap ObjectId A)
    (i j : ObjectId) (x : A) :
  (∀ k, (nextId st ≤ k)%N → m !! k = None) →
  m !! j = Some x → (nextId st ≤ i)%N → j ≠ i.
Proof. intros Hm Hj Hi Heq. subst. rewrite (Hm _ Hi) in Hj. done. Qed.

Ltac fresh_ids :=
  match goal with
  | Hinv : ids_below ?st |- ids_below _ =>
      apply (ids_below_mono st); simpl; try done; try lia;
      intros i Hi Hnone;
      try (rewrite lookup_insert_ne by lia);
      try (rewrite lookup_delete_ne by (intros ->; congruence));
      try done
  end.

Lemma saveUser_ids_below `{E : Externals} (st st' : Store)
    (name email password : option string) (role : string)
    (photo phone : option string) (cs : list string) (k : option string)
    (u : User) :
  saveUser st name email password role photo phone cs k = inr (st', u) →
  ids_below st → ids_below st'.
Proof.
  unfold saveUser.
  destruct (required name), (required email), (required password),
    (parseRole role); try done.
  destruct (findOneByEmail _ _); [done|].
  intros [= <- _] Hinv. fresh_ids.
Qed.

Lemma signup_ids_below `{E : Externals} (st : Store) (t : Z) (b : SignupBody) :
  ids_below st → ids_below (signup st t b).1.
Proof.
  intros Hinv. unfold signup.
  destruct (findOneByEmail _ _); [done|].
  destruct (saveUser _ _ _ _ _ _ _ _ _) as [err|[st' u]] eqn:Hsave; [done|].
  by apply (saveUser_ids_below _ _ _ _ _ _ _ _ _ _ _ Hsave).
Qed.

Lemma signup_old_ids_below `{E : Externals} (st : Store) (b : SignupBody) :
  ids_below st → ids_below (signup_old st b).1.
Proof.
  intros Hinv. unfold signup_old.
  destruct (findOneByEmail _ _); [done|].
  destruct (saveUser _ _ _ _ _ _ _ _ _) as [err|[st' u]] eqn:Hsave; [done|].
  by apply (saveUser_ids_below _ _ _ _ _ _ _ _ _ _ _ Hsave).
Qed.

Lemma logout_ids_below (st : Store) (cx : Ctx) :
  ids_below st → ids_below (logout st cx).1.
Proof. intros Hinv. unfold logout. by destruct (tokenOf _). Qed.

(** Behind the gate a handler either does not run, and the store stays,
    or runs on the authenticated user. *)
Lemma authorized_cases `{E : Externals} (roles : list Role) (st : Store)
    (cx : Ctx) (handler : User → Store * Response) :
  (authorized roles st cx handler).1 = st
  ∨ ∃ u, authenticateToken st cx = Next u ∧ u_role u ∈ roles
         ∧ authorized roles st cx handler = handler u.
Proof.
  unfold authorized, authenticated, authorizeRoles.
  destruct (authenticateToken st cx) as [r|u]; [by left|].
  destruct (decide (u_role u ∈ roles)); [|by left].
  right. by exists u.
Qed.

Lemma authenticated_cases `{E : Externals} (st : Store) (cx : Ctx)
    (handler : User → Store * Response) :
  (authenticated st cx handler).1 = st
  ∨ ∃ u, authenticateToken st cx = Next u
         ∧ authenticated st cx handler = handler u.
Proof.
  unfold authenticated.
  destruct (authenticateToken st cx) as [r|u]; [by left|].
  right. by exists u.
Qed.

Lemma route_logout_ids_below `{E : Externals} (st : Store) (cx : Ctx) :
  ids_below st → ids_below (route_logout st cx).1.
Proof.
  intros Hinv. unfold route_logout.
  destruct (authenticated_cases st cx
    (λ _, match tokenOf (authorization cx) with
          | Some token =>
              (set_routeBlacklist (λ l, (l ++ [token])%list) st,
               {| status := 200; body := JMessage "Logout successful" |})
          | None => (st, {| status := 400; body := JMessage "Token required" |})
          end)) as [->|(u & _ & ->)]; [done|].
  by destruct (tokenOf _).
Qed.

Lemma route_delete_course_ids_below `{E : Externals} (st : Store) (cx : Ctx)
    (id : IdParam) :
  ids_below st → ids_below (route_delete_course st cx id).1.
Proof.
  intros Hinv. unfold route_delete_course.
  match goal with |- context [authorized ?r st cx ?h] =>
    destruct (authorized_cases r st cx h) as [->|(u & _ & _ & ->)]; [done|]
  end.
  destruct id as [i|]; simpl; [|done].
  destruct (courses st !! i); [|done]. simpl.
  apply (ids_below_mono st); simpl; try done.
  intros k Hk Hnone. by rewrite lookup_delete_None; right.
Qed.

Lemma route_create_lesson_ids_below `{E : Externals} (st : Store) (cx : Ctx)
    (b : LessonBody) :
  ids_below st → ids_below (route_create_lesson st cx b).1.
Proof.
  intros Hinv. unfold route_create_lesson.
  match goal with |- context [authorized ?r st cx ?h] =>
    destruct (authorized_cases r st cx h) as [->|(u & _ & _ & ->)]; [done|]
  end.
  unfold saveLesson.
  destruct (required (lb_title b)), (required (lb_description b)),
    (requiredId (lb_courseId b)); try done.
  simpl. fresh_ids.
Qed.

Lemma route_delete_lesson_ids_below `{E : Externals} (st : Store) (cx : Ctx)
    (id : IdParam) :
  ids_below st → ids_below (route_delete_lesson st cx id).1.
Proof.
  intros Hinv. unfold route_delete_lesson.
  match goal with |- context [authorized ?r st cx ?h] =>
    destruct (authorized_cases r st cx h) as [->|(u & _ & _ & ->)]; [done|]
  end.
  destruct id as [i|]; simpl; [|done].
  destruct (lessons st !! i); [|done]. simpl.
  apply (ids_below_mono st); simpl; try done.
  - intros k Hk Hnone. by rewrite lookup_delete_None; right.
  - intros k Hk Hnone. unfold deleteManyIn.
    apply map_lookup_filter_None. by left.
Qed.

Lemma route_create_topic_ids_below `{E : Externals} (st : Store) (cx : Ctx)
    (b : TopicBody) (file : option string) :
  ids_below st → ids_below (route_create_topic st cx b file).1.
Proof.
  intros Hinv. unfold route_create_topic.
  match goal with |- context [authorized ?r st cx ?h] =>
    destruct (authorized_cases r st cx h) as [->|(u & _ & _ & ->)]; [done|]
  end.
  unfold saveTopic.
  destruct (required (tb_title b)), (required (tb_description b)),
    (requiredId (tb_lessonId b)) as [lid|]; try done.
  simpl. destruct (lessons st !! lid) as [lesson|] eqn:Hl; simpl;
    [destruct (resaveLesson _) as [err|saved]; simpl|].
  - fresh_ids.
  - apply (ids_below_mono st); simpl; try done; try lia.
    + intros k Hk Hnone. rewrite lookup_insert_ne; [done|].
      apply (ids_below_known st (lessons st) k lid lesson); [|done|lia].
      intros j Hj. by apply Hinv.
    + intros k Hk Hnone. by rewrite lookup_insert_ne by lia.
  - fresh_ids.
Qed.

Lemma route_delete_topic_ids_below `{E : Externals} (st : Store) (cx : Ctx)
    (id : IdParam) :
  ids_below st → ids_below (route_delete_topic st cx id).1.
Proof.
  intros Hinv. unfold route_delete_topic.
  match goal with |- context [authorized ?r st cx ?h] =>
    destruct (authorized_cases r st cx h) as [->|(u & _ & _ & ->)]; [done|]
  end.
  destruct id as [i|]; simpl; [|done].
  destruct (topics st !! i) as [topic|]; [|done]. simpl.
  destruct (lessons st !! t_lessonId topic) as [lesson|] eqn:Hl; simpl;
    [destruct (resaveLesson _) as [err|saved]; simpl|].
  - apply (ids_below_mono st); simpl; try done.
    intros k Hk Hnone. by rewrite lookup_delete_None; right.
  - apply (ids_below_mono st); simpl; try done.
    + intros k Hk Hnone. rewrite lookup_insert_ne; [done|].
      apply (ids_below_known st (lessons st) k _ lesson); [|done|lia].
      intros j Hj. by apply Hinv.
    + intros k Hk Hnone. by rewrite lookup_delete_None; right.
  - apply (ids_below_mono st); simpl; try done.
    intros k Hk Hnone. by rewrite lookup_delete_None; right.
Qed.

(** The id that the next [new Topic] draws is free. *)
Lemma ids_below_fresh_topic (st : Store) :
  ids_below st → topics st !! nextId st = None.
Proof. intros Hinv. by apply Hinv. Qed.

(** ** Queries *)

Lemma deleteManyIn_listed {A : Type} (ids : list ObjectId)
    (m : gmap ObjectId A) (i : ObjectId) :
  i ∈ ids → deleteManyIn ids m !! i = None.
Proof.
  intros Hin. unfold deleteManyIn. apply map_lookup_filter_None.
  right. intros x _ Hnot. by apply Hnot.
Qed.

Lemma deleteManyIn_unlisted {A : Type} (ids : list ObjectId)
    (m : gmap ObjectId A) (i : ObjectId) :
  i ∉ ids → deleteManyIn ids m !! i = m !! i.
Proof.
  intros Hnot. unfold deleteManyIn. destruct (m !! i) as [x|] eqn:Hx.
  - by apply map_lookup_filter_Some.
  - apply map_lookup_filter_None. by left.
Qed.

(** ** Courses *)

(** C8: a successful admin delete of a course removes the course record
    and nothing else: the lessons of that course and the topics of
    those lessons are in the store afterwards, unchanged. *)
Theorem delete_course_keeps_lessons_and_topics `{E : Externals}
    (st : Store) (cx : Ctx) (u : User) (cid : ObjectId) (course : Course) :
  authenticateToken st cx = Next u →
  u_role u = RoleAdmin →
  courses st !! cid = Some course →
  ∃ st',
    route_delete_course st cx (IdOk cid) =
      (st', {| status := 200; body := JMessage "Course deleted successfully" |})
    ∧ courses st' = delete cid (courses st)
    ∧ lessons st' = lessons st
    ∧ topics st' = topics st
    ∧ users st' = users st
    ∧ ∀ lid lesson,
        lessons st !! lid = Some lesson →
        l_courseId lesson = cid →
        lessons st' !! lid = Some lesson
        ∧ ∀ tid topic,
            topics st !! tid = Some topic →
            t_lessonId topic = lid →
            topics st' !! tid = Some topic.
Proof.
  intros Hu Hrole Hc. unfold route_delete_course.
  rewrite (authorized_admin _ _ u) by done.
  unfold findByIdAndDelete. rewrite Hc.
  eexists. split; [reflexivity|]. simpl. repeat split; auto.
Qed.

Lemma delete_course_keeps_lessons_and_topics_witness :
  ∃ st',
    (@route_delete_course Sample.externals Sample.with_course Sample.as_admin (IdOk 5%N)).1 = st'
    ∧ courses st' = delete 5%N (courses Sample.with_course)
    ∧ lessons st' !! 10%N = Some Sample.lonely_lesson
    ∧ topics st' !! 11%N = Some Sample.unlisted_topic.
Proof.
  destruct (@delete_course_keeps_lessons_and_topics Sample.externals
              Sample.with_course Sample.as_admin Sample.admin 5%N Sample.course5)
    as (st' & Hr & Hc & Hl & Ht & _ & _).
  - vm_compute. reflexivity.
  - reflexivity.
  - vm_compute. reflexivity.
  - exists st'. rewrite Hr, Hl, Ht.
    repeat split; [done|..]; vm_compute; reflexivity.
Defined.

(** C7, on the handler: GET /courses/:id with a well-formed id that
    resolves to no course is answered 200 with a null body, where the
    lesson and topic routes answer 404. *)
Theorem get_course_missing_is_200_null `{E : Externals}
    (st : Store) (cx : Ctx) (u : User) (cid : ObjectId) :
  authenticateToken st cx = Next u →
  courses st !! cid = None →
  route_get_course st cx (IdOk cid) = (st, {| status := 200; body := JNull |})
  ∧ (lessons st !! cid = None →
       route_get_lesson st cx (IdOk cid) =
         (st, {| status := 404; body := JError "Lesson not found" |}))
  ∧ (topics st !! cid = None →
       route_get_topic st cx (IdOk cid) =
         (st, {| status := 404; body := JError "Topic not found" |})).
Proof.
  intros Hu Hc.
  unfold route_get_course, route_get_lesson, route_get_topic.
  rewrite !(authenticated_next _ _ u) by done. simpl.
  rewrite Hc. split; [done|]. split; by intros ->.
Qed.

Lemma get_course_missing_is_200_null_witness :
  @route_get_course Sample.externals Sample.base (Sample.bearer Sample.alice 10) (IdOk 99%N)
    = (Sample.base, {| status := 200; body := JNull |}).
Proof.
  refine (proj1 (@get_course_missing_is_200_null Sample.externals Sample.base
                   (Sample.bearer Sample.alice 10) Sample.alice 99%N _ _)).
  - vm_compute. reflexivity.
  - reflexivity.
Defined.

(** ** Topics *)

(** C9: an admin delete of a topic whose lesson does not exist answers
    200 and removes the topic; no lesson is touched and no error is
    raised for the missing lesson. *)
Theorem delete_topic_without_lesson `{E : Externals}
    (st : Store) (cx : Ctx) (u : User) (tid : ObjectId) (topic : Topic) :
  authenticateToken st cx = Next u →
  u_role u = RoleAdmin →
  topics st !! tid = Some topic →
  lessons st !! t_lessonId topic = None →
  ∃ st',
    route_delete_topic st cx (IdOk tid) =
      (st', {| status := 200; body := JMessage "Topic deleted successfully" |})
    ∧ topics st' = delete tid (topics st)
    ∧ topics st' !! tid = None
    ∧ lessons st' = lessons st
    ∧ courses st' = courses st.
Proof.
  intros Hu Hrole Ht Hl. unfold route_delete_topic.
  rewrite (authorized_admin _ _ u) by done.
  unfold findByIdAndDelete. rewrite Ht. simpl. rewrite Hl.
  eexists. split; [reflexivity|]. simpl.
  repeat split. apply lookup_delete_eq.
Qed.

Lemma delete_topic_without_lesson_witness :
  ∃ st',
    @route_delete_topic Sample.externals
      (set_lessons (λ _, ∅) Sample.unlisted) Sample.as_admin (IdOk 11%N) =
      (st', {| status := 200; body := JMessage "Topic deleted successfully" |})
    ∧ topics st' !! 11%N = None
    ∧ lessons st' = ∅.
Proof.
  destruct (@delete_topic_without_lesson Sample.externals
              (set_lessons (λ _, ∅) Sample.unlisted) Sample.as_admin Sample.admin
              11%N Sample.unlisted_topic)
    as (st' & Hr & _ & Ht & Hl & _).
  - vm_compute. reflexivity.
  - reflexivity.
  - vm_compute. reflexivity.
  - reflexivity.
  - exists st'. split; [exact Hr|]. split; [exact Ht|exact Hl].
Defined.

(** C4, on the handler: an admin topic-create whose fields are valid
    and whose [lessonId] names no lesson is answered 404, yet the topic
    has been saved before the lesson is looked up: the store holds it
    and a fetch of its id answers 200. *)
Theorem create_topic_missing_lesson_saves_topic `{E : Externals}
    (st : Store) (cx : Ctx) (u : User) (b : TopicBody) (file : option string)
    (title description : string) (lid : ObjectId) :
  authenticateToken st cx = Next u →
  u_role u = RoleAdmin →
  required (tb_title b) = Some title →
  required (tb_description b) = Some description →
  tb_lessonId b = Some (IdOk lid) →
  lessons st !! lid = None →
  topics st !! nextId st = None →
  ∃ st' topic,
    topic = {| t_id := nextId st; t_title := title; t_description := description;
               t_lessonId := lid; t_image := file |}
    ∧ route_create_topic st cx b file =
        (st', {| status := 404; body := JError "Lesson not found" |})
    ∧ topics st' = <[nextId st := topic]> (topics st)
    ∧ topics st' ≠ topics st
    ∧ lessons st' = lessons st
    ∧ route_get_topic st' cx (IdOk (nextId st)) =
        (st', {| status := 200; body := JTopic topic |}).
Proof.
  intros Hu Hrole Htitle Hdesc Hlid Hl Hfresh.
  unfold route_create_topic. rewrite (authorized_admin _ _ u) by done.
  unfold saveTopic. rewrite Htitle, Hdesc, Hlid. simpl. rewrite Hl.
  eexists _, _. split; [reflexivity|]. split; [reflexivity|]. simpl.
  split; [done|]. split; [|split; [done|]].
  - intros Heq. apply (f_equal (λ m, m !! nextId st)) in Heq.
    rewrite lookup_insert_eq, Hfresh in Heq. done.
  - unfold route_get_topic. rewrite (authenticated_next _ _ u).
    + simpl. by rewrite lookup_insert_eq.
    + rewrite <- Hu. by apply authenticateToken_ext.
Qed.

Lemma create_topic_missing_lesson_saves_topic_witness :
  ∃ st',
    @route_create_topic Sample.externals Sample.base Sample.as_admin Sample.topic_body None =
      (st', {| status := 404; body := JError "Lesson not found" |})
    ∧ topics Sample.base = ∅
    ∧ topics st' !! 3%N =
        Some {| t_id := 3%N; t_title := "T"; t_description := "d";
                t_lessonId := 99%N; t_image := None |}.
Proof.
  destruct (@create_topic_missing_lesson_saves_topic Sample.externals Sample.base
              Sample.as_admin Sample.admin Sample.topic_body None "T" "d" 99%N)
    as (st' & topic & -> & Hr & Ht & _); try reflexivity.
  exists st'. split; [exact Hr|]. split; [reflexivity|].
  rewrite Ht. apply lookup_insert_eq.
Defined.

(** ** Lessons *)

(** C3, as amended: a successful admin delete of a lesson removes the
    lesson and every topic listed in its [topics] array, so that a
    fetch of such a topic is answered 404; a topic that the array does
    not list stays as it was, whatever its [lessonId]. *)
Theorem delete_lesson_removes_listed_topics `{E : Externals}
    (st : Store) (cx : Ctx) (u : User) (lid : ObjectId) (lesson : Lesson) :
  authenticateToken st cx = Next u →
  u_role u = RoleAdmin →
  lessons st !! lid = Some lesson →
  ∃ st',
    route_delete_lesson st cx (IdOk lid) =
      (st', {| status := 200; body := JMessage "Lesson deleted successfully" |})
    ∧ lessons st' = delete lid (lessons st)
    ∧ (∀ tid, tid ∈ l_topics lesson →
         topics st' !! tid = None
         ∧ route_get_topic st' cx (IdOk tid) =
             (st', {| status := 404; body := JError "Topic not found" |}))
    ∧ (∀ tid, tid ∉ l_topics lesson → topics st' !! tid = topics st !! tid).
Proof.
  intros Hu Hrole Hl. unfold route_delete_lesson.
  rewrite (authorized_admin _ _ u) by done.
  unfold findByIdAndDelete. rewrite Hl.
  eexists. split; [reflexivity|]. simpl. split; [done|]. split.
  - intros tid Hin.
    pose proof (deleteManyIn_listed (l_topics lesson) (topics st) tid Hin) as Hgone.
    split; [done|]. unfold route_get_topic.
    rewrite (authenticated_next _ _ u).
    + simpl. by rewrite Hgone.
    + rewrite <- Hu. by apply authenticateToken_ext.
  - intros tid Hnot. by apply deleteManyIn_unlisted.
Qed.

Lemma delete_lesson_removes_listed_topics_witness :
  ∃ st',
    @route_delete_lesson Sample.externals
      (set_lessons (insert 10%N (push_topic 11%N Sample.lonely_lesson)) Sample.unlisted)
      Sample.as_admin (IdOk 10%N) =
      (st', {| status := 200; body := JMessage "Lesson deleted successfully" |})
    ∧ @route_get_topic Sample.externals st' Sample.as_admin (IdOk 11%N) =
        (st', {| status := 404; body := JError "Topic not found" |}).
Proof.
  destruct (@delete_lesson_removes_listed_topics Sample.externals
              (set_lessons (insert 10%N (push_topic 11%N Sample.lonely_lesson)) Sample.unlisted)
              Sample.as_admin Sample.admin 10%N (push_topic 11%N Sample.lonely_lesson))
    as (st' & Hr & _ & Hin & _).
  - vm_compute. reflexivity.
  - reflexivity.
  - vm_compute. reflexivity.
  - exists st'. split; [exact Hr|].
    apply (Hin 11%N). apply list_elem_of_singleton. reflexivity.
Defined.

(** C3 as the specification words it fails: the topic that names lesson
    10 without being listed by it survives the deletion of lesson 10,
    and its fetch is answered 200. *)
Lemma delete_lesson_leaves_unlisted_topic :
  ¬ lesson_delete_removes_by_lessonId Sample.externals.
Proof.
  intros Hclaim.
  pose proof (Hclaim Sample.unlisted
                (@route_delete_lesson Sample.externals Sample.unlisted Sample.as_admin (IdOk 10%N)).1
                Sample.as_admin 10%N 11%N
                {| status := 200; body := JMessage "Lesson deleted successfully" |}
                Sample.unlisted_topic) as H.
  assert (status (@route_get_topic Sample.externals
            (@route_delete_lesson Sample.externals Sample.unlisted Sample.as_admin (IdOk 10%N)).1
            Sample.as_admin (IdOk 11%N)).2 = 200) as H200
    by (vm_compute; reflexivity).
  rewrite H in H200; [discriminate| | | | |].
  - exists Sample.lonely_lesson. vm_compute. reflexivity.
  - vm_compute. reflexivity.
  - reflexivity.
  - vm_compute. reflexivity.
  - reflexivity.
Qed.

(** What lesson-create does check of [courseId]: a lesson that it
    accepts carries a [courseId] that is present and casts to an object
    id, and the saved lesson holds that id; a request whose [courseId]
    is missing or does not cast is not accepted and leaves the store
    unchanged. *)
Lemma create_lesson_courseId_checked `{E : Externals}
    (st : Store) (cx : Ctx) (b : LessonBody) :
  (∀ st' r,
     route_create_lesson st cx b = (st', r) →
     status r = 201 →
     ∃ cid lesson,
       lb_courseId b = Some (IdOk cid)
       ∧ r = {| status := 201; body := JLesson lesson |}
       ∧ l_courseId lesson = cid
       ∧ lessons st' !! nextId st = Some lesson)
  ∧ (requiredId (lb_courseId b) = None →
     ∃ r, route_create_lesson st cx b = (st, r) ∧ status r ≠ 201).
Proof.
  split.
  - intros st' r. unfold route_create_lesson, authorized, authenticated.
    destruct (authenticateToken st cx) as [r0|u] eqn:Hgate.
    { intros [= <- <-] Hs.
      destruct (gate_respond_status st cx r0 Hgate) as [H|[H|H]];
        rewrite H in Hs; discriminate. }
    unfold authorizeRoles. destruct (decide (u_role u ∈ [RoleAdmin]));
      [|intros [= <- <-]; discriminate].
    unfold saveLesson.
    destruct (required (lb_title b)) as [title|]; [|intros [= <- <-]; discriminate].
    destruct (required (lb_description b)) as [description|];
      [|intros [= <- <-]; discriminate].
    destruct (lb_courseId b) as [[cid|]|]; simpl;
      [|intros [= <- <-]; discriminate..].
    intros [= <- <-] _. eexists cid, _. repeat split. simpl.
    apply lookup_insert_eq.
  - intros Hnone. unfold route_create_lesson, authorized, authenticated.
    destruct (authenticateToken st cx) as [r0|u] eqn:Hgate.
    { exists r0. split; [done|].
      destruct (gate_respond_status st cx r0 Hgate) as [H|[H|H]]; rewrite H; lia. }
    destruct (authorizeRoles [RoleAdmin] u) as [r1|u1] eqn:Hrole.
    { exists r1. split; [done|]. unfold authorizeRoles in Hrole.
      destruct (decide (u_role u ∈ [RoleAdmin])); [done|].
      injection Hrole as <-. simpl. lia. }
    unfold saveLesson. rewrite Hnone.
    destruct (required (lb_title b)), (required (lb_description b));
      eexists; (split; [reflexivity|simpl; lia]).
Qed.

(** C5, on the handler: an administrator's POST /lessons with a title,
    a description and a [courseId] that casts to an object id under
    which the course collection holds nothing is accepted all the same:
    the answer is 201 with the new lesson, the lesson is stored under
    the id drawn for it and carries that [courseId], and the course
    collection, which the handler never reads, is as it was, so the
    lesson refers to a course that does not exist. *)
Theorem create_lesson_missing_course_accepted `{E : Externals}
    (st : Store) (cx : Ctx) (u : User) (b : LessonBody)
    (title description : string) (cid : ObjectId) :
  authenticateToken st cx = Next u →
  u_role u = RoleAdmin →
  required (lb_title b) = Some title →
  required (lb_description b) = Some description →
  lb_courseId b = Some (IdOk cid) →
  courses st !! cid = None →
  ∃ st' lesson,
    lesson = {| l_id := nextId st; l_title := title;
                l_description := description; l_courseId := cid;
                l_topics := lb_topics b; l_content := lb_content b;
                l_v := 0%N |}
    ∧ route_create_lesson st cx b =
        (st', {| status := 201; body := JLesson lesson |})
    ∧ lessons st' !! nextId st = Some lesson
    ∧ courses st' = courses st
    ∧ courses st' !! l_courseId lesson = None.
Proof.
  intros Hu Hrole Htitle Hdesc Hcid Hnone.
  unfold route_create_lesson. rewrite (authorized_admin _ _ u) by done.
  unfold saveLesson. rewrite Htitle, Hdesc, Hcid. simpl.
  eexists _, _. split; [reflexivity|]. split; [reflexivity|]. simpl.
  split; [apply lookup_insert_eq|]. by split.
Qed.

Lemma create_lesson_missing_course_accepted_witness :
  ∃ st',
    @route_create_lesson Sample.externals Sample.base Sample.as_admin
      Sample.lesson_body =
      (st', {| status := 201;
               body := JLesson {| l_id := 3%N; l_title := "L"; l_description := "d";
                                  l_courseId := 99%N; l_topics := [];
                                  l_content := None; l_v := 0%N |} |})
    ∧ courses st' !! 99%N = None.
Proof.
  destruct (@create_lesson_missing_course_accepted Sample.externals Sample.base
              Sample.as_admin Sample.admin Sample.lesson_body "L" "d" 99%N)
    as (st' & lesson & -> & Hr & _ & _ & Hnone); try reflexivity.
  exists st'. split; [exact Hr|exact Hnone].
Defined.

(** [lesson_create_checks_course] does not hold of the handler: on the
    small instance an administrator creates a lesson for course 99 in a
    store that has no course at all. *)
Lemma create_lesson_accepts_missing_course :
  ¬ lesson_create_checks_course Sample.externals.
Proof.
  intros Hclaim.
  destruct (Hclaim Sample.base
              (@route_create_lesson Sample.externals Sample.base Sample.as_admin Sample.lesson_body).1
              Sample.as_admin Sample.lesson_body
              (@route_create_lesson Sample.externals Sample.base Sample.as_admin Sample.lesson_body).2)
    as (cid & _ & [course Hc]).
  - by destruct (route_create_lesson _ _ _).
  - vm_compute. reflexivity.
  - change (courses Sample.base) with (∅ : gmap ObjectId Course) in Hc.
    by rewrite lookup_empty in Hc.
Qed.

(** The scenario of the specification, run on the small instance from
    the empty store: signup answers 201 with a token, GET /profile with
    that token answers 200 with the email of the new user, POST /logout
    answers 200, and GET /profile with the same token answers 200
    again. *)
Example scenario_profile_after_logout :
  ∃ st1 newUser token st2,
    @signup Sample.externals emptyStore 0 Sample.signup_body =
      (st1, {| status := 201;
               body := JSignup "User created successfully" newUser token |})
    ∧ u_email newUser = "a@x.com"
    ∧ @route_profile Sample.externals st1
        {| authorization := Some ("Bearer " ++ token); now := 1 |} =
        (st1, {| status := 200; body := JUser newUser |})
    ∧ @route_logout Sample.externals st1
        {| authorization := Some ("Bearer " ++ token); now := 2 |} =
        (st2, {| status := 200; body := JMessage "Logout successful" |})
    ∧ @route_profile Sample.externals st2
        {| authorization := Some ("Bearer " ++ token); now := 3 |} =
        (st2, {| status := 200; body := JUser newUser |}).
Proof.
  eexists _, _, _, _.
  split; [vm_compute; reflexivity|].
  split; [reflexivity|].
  split; [vm_compute; reflexivity|].
  split; vm_compute; reflexivity.
Qed.

(** ** Signup and login *)

Lemma required_Some (o : option string) (s : string) :
  required o = Some s → o = Some s ∧ s ≠ "".
Proof.
  unfold required. destruct o as [x|]; [|done].
  destruct (String.eqb x "") eqn:Hx; [done|].
  intros [= <-]. split; [done|]. by apply String.eqb_neq.
Qed.

(** The later controller: a signup whose name, email and password are
    present, whose role is absent or one of the two roles, and whose
    email no user has, is answered 201 with the new user and a token;
    the user is in the store; for the hour that follows, verify accepts
    the token and yields the id of that user and the role stored on
    it. *)
Lemma signup_token_verifies `{E : Externals} `{!JwtSound E}
    (st : Store) (t : Z) (b : SignupBody)
    (name email password : string) (role : Role) :
  required (sb_name b) = Some name →
  required (sb_email b) = Some email →
  required (sb_password b) = Some password →
  parseRole (roleOrDefault (sb_role b)) = Some role →
  findOneByEmail (users st) (sb_email b) = None →
  ∃ st' newUser token,
    signup st t b =
      (st', {| status := 201;
               body := JSignup "User created successfully" newUser token |})
    ∧ u_email newUser = email
    ∧ u_role newUser = role
    ∧ users st' !! u_id newUser = Some newUser
    ∧ compact token
    ∧ ∀ t', t ≤ t' < t + oneHour →
        ∃ payload,
          jwt_verify token JWT_SECRET t' = Some payload
          ∧ users st' !! p_id payload = Some newUser
          ∧ p_role payload = u_role newUser.
Proof.
  intros Hname Hemail Hpw Hrole Hfree. unfold signup. rewrite Hfree.
  unfold saveUser. rewrite Hname, Hemail, Hpw, Hrole.
  destruct (required_Some _ _ Hemail) as [Heq _].
  rewrite <- Heq, Hfree.
  eexists _, _, _. split; [reflexivity|]. simpl.
  split; [done|]. split; [done|].
  split; [apply lookup_insert_eq|].
  split; [apply jwt_sign_compact|].
  intros t' Ht'. eexists. split; [by apply jwt_verify_sign|]. simpl.
  split; [apply lookup_insert_eq|done].
Qed.

Lemma signup_token_verifies_on_sample :
  ∃ st' newUser token,
    @signup Sample.externals emptyStore 0 Sample.signup_body =
      (st', {| status := 201;
               body := JSignup "User created successfully" newUser token |})
    ∧ u_email newUser = "a@x.com"
    ∧ u_role newUser = RoleUser
    ∧ ∃ payload,
        Sample.verify token "s3cret" 3599 = Some payload
        ∧ users st' !! p_id payload = Some newUser
        ∧ p_role payload = u_role newUser.
Proof.
  destruct (@signup_token_verifies Sample.externals sample_sound emptyStore 0
              Sample.signup_body "A" "a@x.com" "p1" RoleUser)
    as (st' & newUser & token & Hr & He & Hro & _ & _ & Hv); try reflexivity.
  exists st', newUser, token. split; [exact Hr|]. split; [exact He|].
  split; [exact Hro|]. apply (Hv 3599). unfold oneHour. lia.
Qed.

(** C6, on the earlier controller, the one at the path the user routes
    load: a signup whose name, email and password are present, whose
    role is absent or one of the two roles, and whose email no user
    has, is answered 201 with the message and the new user and nothing
    else; the user is in the store with that email and role; the body
    of the response is not one that carries a token. *)
Theorem signup_old_returns_no_token `{E : Externals}
    (st : Store) (b : SignupBody)
    (name email password : string) (role : Role) :
  required (sb_name b) = Some name →
  required (sb_email b) = Some email →
  required (sb_password b) = Some password →
  parseRole (roleOrDefault (sb_role b)) = Some role →
  findOneByEmail (users st) (sb_email b) = None →
  ∃ st' newUser,
    signup_old st b =
      (st', {| status := 201;
               body := JSignupNoToken "User created successfully" newUser |})
    ∧ u_email newUser = email
    ∧ u_role newUser = role
    ∧ users st' !! u_id newUser = Some newUser
    ∧ ∀ m v token, body (signup_old st b).2 ≠ JSignup m v token.
Proof.
  intros Hname Hemail Hpw Hrole Hfree. unfold signup_old. rewrite Hfree.
  unfold saveUser. rewrite Hname, Hemail, Hpw, Hrole.
  destruct (required_Some _ _ Hemail) as [Heq _].
  rewrite <- Heq, Hfree.
  eexists _, _. split; [reflexivity|]. simpl.
  split; [done|]. split; [done|]. split; [apply lookup_insert_eq|done].
Qed.

Lemma signup_old_returns_no_token_witness :
  ∃ st' newUser,
    @signup_old Sample.externals emptyStore Sample.signup_body =
      (st', {| status := 201;
               body := JSignupNoToken "User created successfully" newUser |})
    ∧ u_email newUser = "a@x.com"
    ∧ u_role newUser = RoleUser
    ∧ users st' !! 0%N = Some newUser.
Proof.
  destruct (@signup_old_returns_no_token Sample.externals emptyStore
              Sample.signup_body "A" "a@x.com" "p1" RoleUser)
    as (st' & newUser & Hr & He & Hro & Hin & _); try reflexivity.
  exists st', newUser. split; [exact Hr|]. split; [exact He|].
  split; [exact Hro|].
  assert (u_id newUser = 0%N) as <-; [|exact Hin].
  vm_compute in Hr. by injection Hr as _ <-.
Defined.




(** * The remaining handlers: facts *)

(** ** The Authorization header *)

Lemma split_space_nonempty (s : string) : split_space s ≠ [].
Proof.
  destruct s as [|c r]; simpl; [done|].
  destruct (Ascii.eqb c space); [done|]. by destruct (split_space r).
Qed.

Lemma split_space_pieces_free (s : string) :
  Forall (λ w, space_free w = true) (split_space s).
Proof.
  induction s as [|c r IH]; simpl.
  - by constructor.
  - destruct (Ascii.eqb c space) eqn:Hc.
    + by constructor.
    + destruct (split_space r) as [|w ws].
      * constructor; [|done]. simpl. by rewrite Hc.
      * inversion IH as [|? ? Hw Hws]; subst.
        constructor; [|done]. simpl. by rewrite Hc, Hw.
Qed.

(** Splitting at the spaces and joining with spaces gives the string
    back. *)
Lemma join_split_space (s : string) : join_space (split_space s) = s.
Proof.
  induction s as [|c r IH]; simpl; [done|].
  destruct (Ascii.eqb c space) eqn:Hc.
  - apply Ascii.eqb_eq in Hc as ->.
    pose proof (split_space_nonempty r) as Hne.
    destruct (split_space r) as [|w ws]; [done|].
    change (join_space ("" :: w :: ws)) with (String space (join_space (w :: ws))).
    by rewrite IH.
  - pose proof (split_space_nonempty r) as Hne.
    destruct (split_space r) as [|w ws]; [done|].
    destruct ws as [|w' ws].
    + simpl in *. by rewrite IH.
    + change (join_space (String c w :: w' :: ws))
        with (String c (join_space (w :: w' :: ws))).
      by rewrite IH.
Qed.

Lemma split_space_app (w x : string) :
  space_free w = true →
  split_space (w ++ String space x) = w :: split_space x.
Proof.
  induction w as [|c r IH].
  - done.
  - intros [Hc Hr]%andb_prop. apply negb_true_iff in Hc.
    change (split_space (String c (r ++ String space x)) = String c r :: split_space x).
    simpl. by rewrite Hc, (IH Hr).
Qed.

Lemma append_empty_r (t : string) : t ++ "" = t.
Proof.
  induction t as [|c t IH]; [done|].
  change (String c (t ++ "") = String c t). by rewrite IH.
Qed.

Lemma split_space_head (t rest : string) :
  space_free t = true →
  rest = "" ∨ (∃ r, rest = String space r) →
  ∃ ws, split_space (t ++ rest) = t :: ws.
Proof.
  intros Ht [->|[r ->]].
  - exists []. rewrite append_empty_r. by apply split_space_free.
  - eexists. by apply split_space_app.
Qed.

(** X1: the token of a request is exactly the second piece of the
    Authorization header when the header is cut at its spaces: the
    header is a first word, a space, the token, and then either nothing
    or a space and anything.  The first word is free: it is not
    compared with "Bearer". *)
Theorem tokenOf_second_word (h t : string) :
  tokenOf (Some h) = Some t ↔
  t ≠ "" ∧ space_free t = true
  ∧ ∃ w rest,
      space_free w = true
      ∧ h = w ++ String space (t ++ rest)
      ∧ (rest = "" ∨ ∃ r, rest = String space r).
Proof.
  split.
  - intros Htok. split; [by apply (tokenOf_nonempty (Some h))|].
    unfold tokenOf in Htok.
    pose proof (join_split_space h) as Hjoin.
    pose proof (split_space_pieces_free h) as Hfree.
    destruct (split_space h) as [|w [|t' ws]]; [done..|].
    simpl in Htok. destruct (String.eqb t' ""); [done|].
    injection Htok as ->.
    inversion Hfree as [|? ? Hw Hrest]; subst.
    inversion Hrest as [|? ? Ht Hws]; subst.
    split; [done|]. exists w.
    destruct ws as [|w' ws].
    + exists "". split; [done|]. split; [|by left].
      by rewrite append_empty_r.
    + exists (String space (join_space (w' :: ws))).
      split; [done|]. split; [reflexivity|right; by eexists].
  - intros (Hne & Ht & w & rest & Hw & -> & Hrest).
    unfold tokenOf. rewrite (split_space_app w _ Hw).
    destruct (split_space_head t rest Ht Hrest) as [ws ->]. simpl.
    apply String.eqb_neq in Hne. by rewrite Hne.
Qed.

(** A Basic header passes its credentials on as the token, and a
    header with two spaces after the scheme carries none. *)
Lemma tokenOf_second_word_witness :
  tokenOf (Some "Basic abc extra") = Some "abc"
  ∧ tokenOf (Some "Bearer  abc") = None.
Proof.
  split; [|reflexivity].
  apply (proj2 (tokenOf_second_word "Basic abc extra" "abc")).
  split; [done|]. split; [reflexivity|].
  exists "Basic", " extra". split; [reflexivity|]. split; [reflexivity|].
  right. by exists "extra".
Defined.

(** ** The gate in front of every route *)

Lemma authenticated_reply_next `{E : Externals} (st : Store) (cx : Ctx) (u : User)
    (handler : User → Store * Reply) :
  authenticateToken st cx = Next u →
  authenticated_reply st cx handler = handler u.
Proof. intros H. unfold authenticated_reply. by rewrite H. Qed.

Lemma authorized_reply_admin `{E : Externals} (st : Store) (cx : Ctx) (u : User)
    (handler : User → Store * Reply) :
  authenticateToken st cx = Next u →
  u_role u = RoleAdmin →
  authorized_reply [RoleAdmin] st cx handler = handler u.
Proof.
  intros Hu Hrole. unfold authorized_reply.
  rewrite (authenticated_reply_next _ _ u) by done.
  unfold authorizeRoles. rewrite Hrole.
  destruct (decide (RoleAdmin ∈ [RoleAdmin])) as [_|Hn]; [done|].
  destruct Hn. by apply list_elem_of_singleton.
Qed.

Lemma authorizeRoles_admin_refuses (u : User) :
  u_role u ≠ RoleAdmin →
  authorizeRoles [RoleAdmin] u =
    Respond {| status := 403;
               body := JMessage "Access denied. Insufficient permissions." |}.
Proof.
  intros Hrole. unfold authorizeRoles.
  destruct (decide (u_role u ∈ [RoleAdmin])) as [Hin|_]; [|done].
  by apply list_elem_of_singleton in Hin.
Qed.

(** X2: whatever the gate answers on its own, every protected route
    answers: a request that [authenticateToken] turns down, for a
    missing, revoked or invalid token or an unknown user, gets that
    answer from each of the seventeen routes embedded here behind the
    gate, and the store is left as it was. *)
Theorem serve_gate_refusal `{E : Externals}
    (st : Store) (q : Request) (cx : Ctx) (r : Response) :
  protected_ctx q = Some cx →
  authenticateToken st cx = Respond r →
  serve st q = (st, Single r).
Proof.
  intros Hcx Hgate.
  destruct q; simpl in Hcx; try discriminate; injection Hcx as ->; simpl;
    unfold single, route_logout, route_profile, route_get_users,
      route_create_course, route_delete_course, route_list_courses,
      route_get_course, route_create_lesson, route_list_lessons,
      route_get_lesson, route_delete_lesson, route_get_lesson_topics,
      route_lessons_by_course, route_create_topic, route_list_topics,
      route_get_topic, route_delete_topic,
      authorized, authenticated, authorized_reply, authenticated_reply;
    by rewrite Hgate.
Qed.

Lemma serve_gate_refusal_witness :
  @serve Sample.externals Demo.store
    (DeleteAdminCourse {| authorization := None; now := 0 |} (IdOk 3%N))
  = (Demo.store,
     Single {| status := 401; body := JMessage "Access denied. No token provided." |}).
Proof.
  apply (@serve_gate_refusal Sample.externals Demo.store _
           {| authorization := None; now := 0 |}); reflexivity.
Defined.

(** X3: the seven routes embedded here that are registered with
    [authorizeRoles("admin")] answer an authenticated user who is not an
    administrator with 403
    and "Access denied. Insufficient permissions.", and leave the store
    as it was. *)
Theorem serve_admin_only `{E : Externals}
    (st : Store) (q : Request) (cx : Ctx) (u : User) :
  protected_ctx q = Some cx →
  admin_only q = true →
  authenticateToken st cx = Next u →
  u_role u ≠ RoleAdmin →
  serve st q =
    (st, Single {| status := 403;
                   body := JMessage "Access denied. Insufficient permissions." |}).
Proof.
  intros Hcx Hadmin Hgate Hrole.
  destruct q; simpl in Hcx, Hadmin; try discriminate; injection Hcx as ->; simpl;
    unfold single, route_get_users, route_create_course, route_delete_course,
      route_create_lesson, route_delete_lesson, route_create_topic,
      route_delete_topic,
      authorized, authenticated, authorized_reply, authenticated_reply;
    by rewrite Hgate, (authorizeRoles_admin_refuses u Hrole).
Qed.

Lemma serve_admin_only_witness :
  @serve Sample.externals Demo.store
    (PostAdminCourses Demo.as_alice Demo.course_body None)
  = (Demo.store,
     Single {| status := 403;
               body := JMessage "Access denied. Insufficient permissions." |}).
Proof.
  refine (@serve_admin_only Sample.externals Demo.store
            (PostAdminCourses Demo.as_alice Demo.course_body None) Demo.as_alice
            Sample.alice eq_refl eq_refl _ _).
  - vm_compute. reflexivity.
  - discriminate.
Defined.

Lemma read_only_store `{E : Externals} (st : Store) (q : Request) :
  read_only q = true → (serve st q).1 = st.
Proof.
  intros Hro.
  destruct q; simpl in Hro; try discriminate; simpl;
    unfold login, route_profile, route_get_users, getAllUsers,
      route_list_courses, route_get_course, route_list_lessons,
      route_get_lesson, route_get_lesson_topics, route_lessons_by_course,
      route_list_topics, route_get_topic,
      authorized, authenticated, authorized_reply, authenticated_reply;
    repeat match goal with
           | |- context [match ?x with _ => _ end] => destruct x; simpl; try done
           end.
Qed.

(** X4: the eleven read-only requests, login and the GET routes, leave
    the store exactly as it was, whatever they answer, and so does any
    sequence of them. *)
Theorem serve_read_only `{E : Externals} (st : Store) (qs : list Request) :
  Forall (λ q, read_only q = true) qs →
  run st qs = st ∧ Forall (λ q, (serve st q).1 = st) qs.
Proof.
  intros Hqs. split.
  - revert st. induction Hqs as [|q qs Hq _ IH]; intros st; [done|].
    unfold run in *. simpl. rewrite (read_only_store st q Hq). apply IH.
  - apply (Forall_impl _ _ _ Hqs). intros q Hq. by apply read_only_store.
Qed.

Lemma serve_read_only_witness :
  @run Sample.externals Demo.store
    [PostLogin 0 Demo.login_body; GetCourses Demo.as_alice;
     GetLessonTopics Sample.as_admin (IdOk 4%N)] = Demo.store.
Proof.
  apply (@serve_read_only Sample.externals). repeat constructor.
Defined.

(** ** What a request does to the store *)

Lemma findOneByEmail_None (m : gmap ObjectId User) (e : string) :
  findOneByEmail m (Some e) = None ↔
  ∀ i v, m !! i = Some v → u_email v ≠ e.
Proof.
  unfold findOneByEmail. rewrite head_None. split.
  - intros Hnil i v Hv Heq.
    assert (v ∈ filter (λ u, u_email u = e) (map_to_list m).*2) as Hin.
    { apply list_elem_of_filter. split; [done|].
      apply list_elem_of_fmap. exists (i, v). split; [done|].
      by apply elem_of_map_to_list. }
    rewrite Hnil in Hin. by apply not_elem_of_nil in Hin.
  - intros Hall.
    destruct (filter (λ u, u_email u = e) (map_to_list m).*2) as [|v l] eqn:Hf;
      [done|].
    assert (v ∈ filter (λ u, u_email u = e) (map_to_list m).*2) as Hin
      by (rewrite Hf; by left).
    apply list_elem_of_filter in Hin as [He Hin].
    apply list_elem_of_fmap in Hin as [[i v'] [-> Hin]].
    apply elem_of_map_to_list in Hin. by destruct (Hall i v' Hin).
Qed.

Lemma findOneByEmail_Some (m : gmap ObjectId User) (e : string) (u : User) :
  findOneByEmail m (Some e) = Some u →
  u_email u = e ∧ ∃ i, m !! i = Some u.
Proof.
  unfold findOneByEmail. intros Hhd.
  assert (u ∈ filter (λ u, u_email u = e) (map_to_list m).*2) as Hin.
  { destruct (filter _ _) as [|x l]; [done|]. injection Hhd as ->. by left. }
  apply list_elem_of_filter in Hin as [He Hin]. split; [done|].
  apply list_elem_of_fmap in Hin as [[i v] [-> Hin]].
  exists i. by apply elem_of_map_to_list.
Qed.

Lemma saveUser_effect `{E : Externals} (st st' : Store)
    (name email password : option string) (role : string)
    (photo phone : option string) (cs : list string) (k : option string)
    (u : User) :
  saveUser st name email password role photo phone cs k = inr (st', u) →
  effect st st'.
Proof.
  unfold saveUser.
  destruct (required name), (required email) as [e|], (required password),
    (parseRole role); try done.
  destruct (findOneByEmail (users st) (Some e)) eqn:Hfree; [done|].
  intros [= <- _]. apply eff_user; [done|]. simpl.
  by apply findOneByEmail_None.
Qed.

Lemma authorized_effect `{E : Externals} (roles : list Role) (st : Store)
    (cx : Ctx) (handler : User → Store * Response) :
  (∀ u, effect st (handler u).1) →
  effect st (authorized roles st cx handler).1.
Proof.
  intros Hh. destruct (authorized_cases roles st cx handler)
    as [->|(u & _ & _ & ->)]; [constructor|apply Hh].
Qed.

Lemma authenticated_effect `{E : Externals} (st : Store) (cx : Ctx)
    (handler : User → Store * Response) :
  (∀ u, effect st (handler u).1) →
  effect st (authenticated st cx handler).1.
Proof.
  intros Hh. destruct (authenticated_cases st cx handler)
    as [->|(u & _ & ->)]; [constructor|apply Hh].
Qed.

Lemma authenticated_reply_effect `{E : Externals} (st : Store) (cx : Ctx)
    (handler : User → Store * Reply) :
  (∀ u, effect st (handler u).1) →
  effect st (authenticated_reply st cx handler).1.
Proof.
  intros Hh. unfold authenticated_reply.
  destruct (authenticateToken st cx); [constructor|apply Hh].
Qed.

Lemma authorized_reply_effect `{E : Externals} (roles : list Role) (st : Store)
    (cx : Ctx) (handler : User → Store * Reply) :
  (∀ u, effect st (handler u).1) →
  effect st (authorized_reply roles st cx handler).1.
Proof.
  intros Hh. unfold authorized_reply. apply authenticated_reply_effect.
  intros u. destruct (authorizeRoles roles u); [constructor|apply Hh].
Qed.

(** Every request acts on the store in one of the eleven ways of
    [effect]. *)
Lemma serve_effect `{E : Externals} (st : Store) (q : Request) :
  effect st (serve st q).1.
Proof.
  destruct (read_only q) eqn:Hro;
    [rewrite read_only_store by done; constructor|].
  destruct q; try discriminate; clear Hro; simpl.
  - unfold signup. destruct (findOneByEmail _ _); [constructor|].
    destruct (saveUser _ _ _ _ _ _ _ _ _) as [err|[st' u]] eqn:Hsave;
      [constructor|]. by apply (saveUser_effect _ _ _ _ _ _ _ _ _ _ _ Hsave).
  - apply authenticated_effect. intros _.
    destruct (tokenOf _); constructor.
  - apply authorized_reply_effect. intros _. unfold saveCourse.
    assert (∀ image,
      effect st (match
        match required (cb_title b), required (cb_description b),
              required (cb_instructor b), requiredNum (cb_price b) with
        | Some t, Some d, Some i, Some p =>
            inr (set_courses (insert (nextId st)
                   {| c_id := nextId st; c_title := t; c_description := d;
                      c_instructor := i; c_price := p; c_image := image |})
                   (bump st),
                 {| c_id := nextId st; c_title := t; c_description := d;
                    c_instructor := i; c_price := p; c_image := image |})
        | _, _, _, _ => inl ValidationError
        end with
        | inl error => (st, Single {| status := 400; body := JErrorOf error |})
        | inr (st', newCourse) =>
            (st', Single {| status := 201; body := JCourse newCourse |})
        end).1) as Hh.
    { intros image.
      destruct (required (cb_title b)), (required (cb_description b)),
        (required (cb_instructor b)), (requiredNum (cb_price b));
        simpl; try constructor. done. }
    destruct file as [f|]; [|apply Hh].
    destruct (fileFilter f); [apply Hh|constructor].
  - apply authorized_effect. intros _.
    destruct id as [i|]; simpl; [|constructor].
    destruct (courses st !! i); constructor.
  - apply authorized_effect. intros _. unfold saveLesson.
    destruct (required (lb_title b)), (required (lb_description b)),
      (requiredId (lb_courseId b)); simpl; try constructor. done.
  - apply authorized_effect. intros _.
    destruct id as [i|]; simpl; [|constructor].
    destruct (lessons st !! i); constructor.
  - apply authorized_effect. intros _. unfold saveTopic.
    destruct (required (tb_title b)), (required (tb_description b)),
      (requiredId (tb_lessonId b)) as [lid|]; simpl; try constructor.
    destruct (lessons st !! lid) as [lesson|] eqn:Hl; simpl;
      [destruct (resaveLesson _) as [err|saved] eqn:Hsave; simpl|].
    + by apply eff_topic.
    + apply resaveLesson_inr in Hsave as ->.
      by apply (eff_topic_linked st _ lid lesson).
    + by apply eff_topic.
  - apply authorized_effect. intros _.
    destruct id as [i|]; simpl; [|constructor].
    destruct (topics st !! i) as [topic|]; simpl; [|constructor].
    destruct (lessons st !! t_lessonId topic) as [lesson|] eqn:Hl; simpl;
      [destruct (resaveLesson _) as [err|saved] eqn:Hsave; simpl|].
    + apply eff_topic_gone.
    + apply resaveLesson_inr in Hsave as ->.
      by apply (eff_topic_unlinked st _ _ lesson).
    + apply eff_topic_gone.
Qed.

(** ** Invariants over sequences of requests *)

Lemma effect_blacklist (st st' : Store) :
  effect st st' → tokenBlacklist st' = tokenBlacklist st.
Proof. by destruct 1. Qed.

Lemma effect_ids_below (st st' : Store) :
  effect st st' → ids_below st → ids_below st'.
Proof.
  intros Heff Hinv.
  destruct Heff as [|token|u Hu Hfree|c Hc|i|l Hl|i ids|t Ht
                    |t lid lesson saved Ht Hl Hsaved
                    |i|i lid lesson saved Hl Hsaved]; try done.
  - fresh_ids.
  - fresh_ids.
  - apply (ids_below_mono st); simpl; try done.
    intros k Hk Hnone. by rewrite lookup_delete_None; right.
  - fresh_ids.
  - apply (ids_below_mono st); simpl; try done.
    + intros k Hk Hnone. by rewrite lookup_delete_None; right.
    + intros k Hk Hnone. unfold deleteManyIn.
      apply map_lookup_filter_None. by left.
  - fresh_ids.
  - apply (ids_below_mono st); simpl; try done; try lia.
    + intros k Hk Hnone. rewrite lookup_insert_ne; [done|].
      apply (ids_below_known st (lessons st) k lid lesson); [|done|lia].
      intros j Hj. by apply Hinv.
    + intros k Hk Hnone. by rewrite lookup_insert_ne by lia.
  - apply (ids_below_mono st); simpl; try done.
    intros k Hk Hnone. by rewrite lookup_delete_None; right.
  - apply (ids_below_mono st); simpl; try done.
    + intros k Hk Hnone. rewrite lookup_insert_ne; [done|].
      apply (ids_below_known st (lessons st) k lid lesson); [|done|lia].
      intros j Hj. by apply Hinv.
    + intros k Hk Hnone. by rewrite lookup_delete_None; right.
Qed.

Lemma effect_ids_match (st st' : Store) :
  effect st st' → ids_match st → ids_match st'.
Proof.
  intros Heff (Hu & Hc & Hl & Ht).
  destruct Heff as [|token|u Hu' Hfree|c Hc'|i|l Hl'|i ids|t Ht'
                    |t lid lesson saved Ht' Hlid Hsaved
                    |i|i lid lesson saved Hlid Hsaved];
    try done; repeat split; simpl; try done.
  - intros k v [[<- <-]|[_ Hv]]%lookup_insert_Some; [done|by apply Hu].
  - intros k v [[<- <-]|[_ Hv]]%lookup_insert_Some; [done|by apply Hc].
  - intros k v [_ Hv]%lookup_delete_Some. by apply Hc.
  - intros k v [[<- <-]|[_ Hv]]%lookup_insert_Some; [done|by apply Hl].
  - intros k v [_ Hv]%lookup_delete_Some. by apply Hl.
  - intros k v [Hv _]%map_lookup_filter_Some. by apply Ht.
  - intros k v [[<- <-]|[_ Hv]]%lookup_insert_Some; [done|by apply Ht].
  - intros k v [[<- <-]|[_ Hv]]%lookup_insert_Some; [|by apply Hl].
    rewrite Hsaved. by apply Hl.
  - intros k v [[<- <-]|[_ Hv]]%lookup_insert_Some; [done|by apply Ht].
  - intros k v [_ Hv]%lookup_delete_Some. by apply Ht.
  - intros k v [[<- <-]|[_ Hv]]%lookup_insert_Some; [|by apply Hl].
    rewrite Hsaved. by apply Hl.
  - intros k v [_ Hv]%lookup_delete_Some. by apply Ht.
Qed.

Lemma effect_unique_emails (st st' : Store) :
  effect st st' → unique_emails st → unique_emails st'.
Proof.
  intros Heff Huniq.
  destruct Heff as [|token|u Hu' Hfree|c Hc'|i|l Hl'|i ids|t Ht'
                    |t lid lesson saved Ht' Hlid Hsaved
                    |i|i lid lesson saved Hlid Hsaved]; try done.
  intros i j v w. simpl.
  intros [[<- <-]|[Hi Hv]]%lookup_insert_Some
         [[<- <-]|[Hj Hw]]%lookup_insert_Some Hmail; try done.
  - by destruct (Hfree j w Hw).
  - by destruct (Hfree i v Hv).
  - by apply (Huniq i j v w).
Qed.

Lemma effect_users_kept (st st' : Store) (i : ObjectId) (u : User) :
  effect st st' → ids_below st →
  users st !! i = Some u → users st' !! i = Some u.
Proof.
  intros Heff Hinv Hu.
  destruct Heff as [|token|v Hv Hfree|c Hc'|k|l Hl'|k ids|t Ht'
                    |t lid lesson saved Ht' Hlid Hsaved
                    |k|k lid lesson saved Hlid Hsaved]; try done.
  simpl. rewrite lookup_insert_ne; [done|].
  intros <-. destruct (Hinv (nextId st)) as [Hnone _]; [lia|].
  by rewrite Hnone in Hu.
Qed.

Lemma effect_consistent (st st' : Store) :
  effect st st' → consistent st → consistent st'.
Proof.
  intros Heff (H1 & H2 & H3). split; [|split].
  - by apply (effect_ids_below st).
  - by apply (effect_ids_match st).
  - by apply (effect_unique_emails st).
Qed.

Lemma consistent_empty : consistent emptyStore.
Proof.
  split; [apply ids_below_empty|]. split.
  - repeat split; intros i x Hx; simpl in Hx;
      by rewrite lookup_empty in Hx.
  - intros i j u v Hu. simpl in Hu. by rewrite lookup_empty in Hu.
Qed.

Lemma run_snoc `{E : Externals} (st : Store) (qs : list Request) (q : Request) :
  run st (qs ++ [q]) = (serve (run st qs) q).1.
Proof. unfold run. by rewrite foldl_app. Qed.

Lemma run_consistent_from `{E : Externals} (st : Store) (qs : list Request) :
  consistent st → consistent (run st qs).
Proof.
  intros Hst. induction qs as [|q qs IH] using rev_ind; [done|].
  rewrite run_snoc. apply (effect_consistent (run st qs)); [|done].
  apply serve_effect.
Qed.

(** X5: whatever requests the server has served since it started on
    empty collections, no document sits under an id that is still to be
    drawn, every document sits under its own [_id], and no two users
    have the same email. *)
Theorem run_consistent `{E : Externals} (qs : list Request) :
  consistent (run emptyStore qs).
Proof.
  induction qs as [|q qs IH] using rev_ind; [apply consistent_empty|].
  rewrite run_snoc. apply (effect_consistent (run emptyStore qs)); [|done].
  apply serve_effect.
Qed.

(** X6: no request removes or alters a user: a user record that is in
    the store is still there, unchanged, after any sequence of
    requests. *)
Theorem run_users_kept `{E : Externals}
    (st : Store) (qs : list Request) (i : ObjectId) (u : User) :
  consistent st →
  users st !! i = Some u →
  users (run st qs) !! i = Some u.
Proof.
  intros Hst Hu. induction qs as [|q qs IH] using rev_ind; [done|].
  rewrite run_snoc.
  apply (effect_users_kept (run st qs)); [apply serve_effect| |done].
  by apply (run_consistent_from st qs).
Qed.

Lemma demo_consistent : consistent Demo.store.
Proof.
  split; [|split].
  - intros i Hi. unfold Demo.store in *. simpl in *.
    repeat split.
    + rewrite lookup_insert_ne by lia. by rewrite lookup_singleton_ne by lia.
    + by rewrite lookup_singleton_ne by lia.
    + by rewrite lookup_singleton_ne by lia.
    + by rewrite lookup_singleton_ne by lia.
  - repeat split; intros i x; simpl.
    + by intros [[<- <-]|[_ [<- <-]%lookup_singleton_Some]]%lookup_insert_Some.
    + by intros [<- <-]%lookup_singleton_Some.
    + by intros [<- <-]%lookup_singleton_Some.
    + by intros [<- <-]%lookup_singleton_Some.
  - intros i j u v. simpl.
    by intros [[<- <-]|[_ [<- <-]%lookup_singleton_Some]]%lookup_insert_Some
              [[<- <-]|[_ [<- <-]%lookup_singleton_Some]]%lookup_insert_Some.
Qed.


Lemma run_users_kept_witness :
  users (@run Sample.externals Demo.store
           [DeleteAdminCourse Sample.as_admin (IdOk 3%N);
            PostLogout Demo.as_alice]) !! 2%N = Some Sample.alice.
Proof.
  apply (@run_users_kept Sample.externals Demo.store _ 2%N Sample.alice).
  - exact demo_consistent.
  - reflexivity.
Defined.

Lemma run_blacklist `{E : Externals} (st : Store) (qs : list Request) :
  tokenBlacklist (run st qs) = tokenBlacklist st.
Proof.
  induction qs as [|q qs IH] using rev_ind; [done|].
  rewrite run_snoc, <- IH. apply effect_blacklist, serve_effect.
Qed.

(** X7: no sequence of requests, POST /logout among them, takes back a
    token: a request the gate lets through is let through, for the same
    user, after any requests served in between. *)
Theorem run_token_still_accepted `{E : Externals}
    (st : Store) (qs : list Request) (cx : Ctx) (u : User) :
  consistent st →
  authenticateToken st cx = Next u →
  authenticateToken (run st qs) cx = Next u.
Proof.
  intros Hst Hgate.
  induction qs as [|q qs IH] using rev_ind; [done|].
  rewrite run_snoc. revert IH. unfold authenticateToken.
  rewrite (effect_blacklist (run st qs) _ (serve_effect (run st qs) q)).
  destruct (tokenOf (authorization cx)) as [token|]; [|done].
  destruct (decide (token ∈ tokenBlacklist (run st qs))); [done|].
  destruct (jwt_verify token JWT_SECRET (now cx)) as [payload|]; [|done].
  destruct (users (run st qs) !! p_id payload) as [v|] eqn:Hv; [|done].
  intros [= <-].
  rewrite (effect_users_kept (run st qs) _ _ v (serve_effect (run st qs) q));
    [done| |done].
  by apply (run_consistent_from st qs).
Qed.

Lemma run_token_still_accepted_witness :
  @authenticateToken Sample.externals
    (@run Sample.externals Demo.store
       [PostLogout Demo.as_alice; DeleteLessonReq Sample.as_admin (IdOk 4%N)])
    Demo.as_alice
  = Next Sample.alice.
Proof.
  apply (@run_token_still_accepted Sample.externals Demo.store).
  - exact demo_consistent.
  - vm_compute. reflexivity.
Defined.

(** X8: the routes never write the Set that the gate reads, so on a
    server that started with nothing revoked the answer "Token is
    blacklisted" is never given, whatever has been requested before. *)
Theorem run_never_blacklisted `{E : Externals} (qs : list Request) (cx : Ctx) :
  tokenBlacklist (run emptyStore qs) = ∅
  ∧ authenticateToken (run emptyStore qs) cx ≠
      Respond {| status := 403;
                 body := JMessage "Token is blacklisted. Please log in again." |}.
Proof.
  pose proof (run_blacklist emptyStore qs) as Hb. split; [done|].
  unfold authenticateToken. rewrite Hb.
  destruct (tokenOf (authorization cx)) as [token|]; [|done].
  destruct (decide (token ∈ tokenBlacklist emptyStore)) as [Hin|_].
  - by apply not_elem_of_empty in Hin.
  - destruct (jwt_verify token JWT_SECRET (now cx)) as [payload|]; [|done].
    by destruct (users (run emptyStore qs) !! p_id payload).
Qed.

(** ** Signup, login and logout *)

Lemma sample_password_sound : PasswordSound Sample.externals.
Proof.
  split. intros u p Hp. simpl in *. rewrite Hp. by rewrite String.eqb_refl.
Qed.

Lemma sample_expiry : JwtExpiry Sample.externals.
Proof.
  split. intros [id role] e t t' Ht He Hexp.
  unfold jwt_verify, jwt_sign, JWT_SECRET, Sample.externals,
    Sample.sign, Sample.verify. simpl.
  assert (Sample.letter_role (Sample.role_letter role) = Some role) as ->
    by (by destruct role).
  rewrite (drop_lead_rep "i" "." _ _ eq_refl).
  rewrite (drop_lead_rep "e" "." _ _ eq_refl).
  rewrite (count_lead_rep "e" "." _ _ eq_refl).
  rewrite String.eqb_refl. simpl.
  destruct (Z.ltb_spec t' (Z.of_nat (Z.to_nat (t + e)))) as [Hlt|_]; [lia|done].
Qed.

(** X9: a signup whose email is the email of a stored user is answered
    400 "User already exists" by both controllers, whatever its other
    fields are, and changes nothing. *)
Theorem signup_duplicate_email `{E : Externals}
    (st : Store) (t : Z) (b : SignupBody) (i : ObjectId) (v : User) :
  users st !! i = Some v →
  sb_email b = Some (u_email v) →
  signup st t b =
    (st, {| status := 400; body := JMessage "User already exists" |})
  ∧ signup_old st b =
    (st, {| status := 400; body := JMessage "User already exists" |}).
Proof.
  intros Hv Hmail. unfold signup, signup_old. rewrite Hmail.
  destruct (findOneByEmail (users st) (Some (u_email v))) eqn:Hfind; [done|].
  destruct (proj1 (findOneByEmail_None _ _) Hfind i v Hv eq_refl).
Qed.

Lemma signup_duplicate_email_witness :
  @signup Sample.externals Sample.base 0 Sample.signup_body =
    (Sample.base, {| status := 400; body := JMessage "User already exists" |})
  ∧ @signup_old Sample.externals Sample.base Sample.signup_body =
    (Sample.base, {| status := 400; body := JMessage "User already exists" |}).
Proof.
  apply (@signup_duplicate_email Sample.externals Sample.base 0
           Sample.signup_body 2%N Sample.alice); reflexivity.
Defined.

(** X10: after a signup that was answered 201, a login with the same
    email and password is answered 200 "Login successful" with the
    record of the user the signup created. *)
Theorem signup_then_login `{E : Externals} `{!PasswordSound E}
    (st st' : Store) (t t' : Z) (b : SignupBody)
    (m token : string) (newUser : User) :
  consistent st →
  signup st t b =
    (st', {| status := 201; body := JSignup m newUser token |}) →
  login st' t' {| lg_email := sb_email b; lg_password := sb_password b |} =
    (st', {| status := 200;
             body := JLogin "Login successful"
                       (jwt_sign {| p_id := u_id newUser; p_role := u_role newUser |}
                          JWT_SECRET oneHour t')
                       newUser |}).
Proof.
  intros Hst Hsignup.
  assert (unique_emails st') as Huniq.
  { pose proof (serve_effect st (PostSignup t b)) as Heff. simpl in Heff.
    rewrite Hsignup in Heff. apply (effect_unique_emails st st' Heff), Hst. }
  unfold signup in Hsignup.
  destruct (findOneByEmail (users st) (sb_email b)); [done|].
  unfold saveUser in Hsignup.
  destruct (required (sb_name b)) as [n|]; [|done].
  destruct (required (sb_email b)) as [e|] eqn:He; [|done].
  destruct (required (sb_password b)) as [p|] eqn:Hp; [|done].
  destruct (parseRole _) as [r|]; [|done].
  destruct (findOneByEmail (users st) (Some e)); [done|].
  injection Hsignup as <- _ <- _.
  apply required_Some in He as [He _]. apply required_Some in Hp as [Hp _].
  unfold login. simpl. rewrite He, Hp.
  set (newUser := {| u_id := nextId st; u_name := n; u_email := e;
                     u_password := hashPassword p; u_role := r;
                     u_profilePhoto := sb_profilePhoto b;
                     u_phoneNumber := sb_phoneNumber b;
                     u_courses := sb_courses b;
                     u_knowledge := sb_knowledge b |}) in *.
  destruct (findOneByEmail (<[nextId st:=newUser]> (users st)) (Some e))
    as [w|] eqn:Hfind.
  - apply findOneByEmail_Some in Hfind as [Hmail [j Hj]].
    assert (j = nextId st) as ->.
    { apply (Huniq j (nextId st) w newUser); simpl; [done| |done].
      apply lookup_insert_eq. }
    rewrite lookup_insert_eq in Hj. injection Hj as <-.
    by rewrite (compare_hash newUser p eq_refl).
  - destruct (proj1 (findOneByEmail_None _ _) Hfind (nextId st) newUser);
      [apply lookup_insert_eq|done].
Qed.

Lemma signup_then_login_witness :
  ∃ st' token,
    @login Sample.externals st' 5
      {| lg_email := Some "a@x.com"; lg_password := Some "p1" |} =
      (st', {| status := 200;
               body := JLogin "Login successful" token
                 {| u_id := 0%N; u_name := "A"; u_email := "a@x.com";
                    u_password := "h:p1"; u_role := RoleUser;
                    u_profilePhoto := None; u_phoneNumber := None;
                    u_courses := []; u_knowledge := None |} |}).
Proof.
  eexists _, _.
  refine (@signup_then_login Sample.externals sample_password_sound
            emptyStore _ 0 5 Sample.signup_body _ _ _ consistent_empty _).
  vm_compute. reflexivity.
Defined.

Lemma login_success `{E : Externals}
    (st st' : Store) (t : Z) (b : LoginBody) (m token : string) (user : User) :
  login st t b = (st', {| status := 200; body := JLogin m token user |}) →
  st' = st
  ∧ token = jwt_sign {| p_id := u_id user; p_role := u_role user |}
              JWT_SECRET oneHour t
  ∧ ∃ i, users st !! i = Some user.
Proof.
  unfold login.
  destruct (findOneByEmail (users st) (lg_email b)) as [w|] eqn:Hfind;
    [|intros [= _ ?]; lia].
  destruct (comparePassword w (lg_password b)) as [err|[]];
    [intros [= _ ?]; lia| |intros [= _ ?]; lia].
  intros [= <- _ <- <-]. split; [done|]. split; [done|].
  destruct (lg_email b) as [e|]; [|done].
  by apply findOneByEmail_Some in Hfind as [_ Hi].
Qed.

(** X11: the token that a successful login returns, sent back as
    [Bearer <token>] within the hour, opens GET /profile on the record
    of the user who logged in, unless the token has been revoked. *)
Theorem login_token_opens_profile `{E : Externals} `{!JwtSound E}
    (st st' : Store) (t t' : Z) (b : LoginBody) (m token : string) (user : User) :
  consistent st →
  login st t b = (st', {| status := 200; body := JLogin m token user |}) →
  token ∉ tokenBlacklist st →
  t ≤ t' < t + oneHour →
  route_profile st' {| authorization := Some ("Bearer " ++ token); now := t' |} =
    (st', {| status := 200; body := JUser user |}).
Proof.
  intros (_ & (Hids & _) & _) Hlogin Hfree Ht.
  apply login_success in Hlogin as (-> & -> & i & Hi).
  unfold route_profile. rewrite (authenticated_next _ _ user); [done|].
  unfold authenticateToken. cbn [authorization now].
  rewrite tokenOf_bearer by apply jwt_sign_compact.
  rewrite decide_False by done.
  rewrite jwt_verify_sign by done. cbn [p_id].
  rewrite (Hids i user Hi). by rewrite Hi.
Qed.

Lemma login_token_opens_profile_witness :
  ∃ token,
    @route_profile Sample.externals Demo.store
      {| authorization := Some ("Bearer " ++ token); now := 3599 |} =
      (Demo.store, {| status := 200; body := JUser Sample.alice |}).
Proof.
  eexists.
  refine (@login_token_opens_profile Sample.externals sample_sound
            Demo.store Demo.store 0 3599 Demo.login_body
            "Login successful" _ Sample.alice demo_consistent _ _ _).
  - vm_compute. reflexivity.
  - apply not_elem_of_empty.
  - unfold oneHour. lia.
Defined.

(** X12: one hour after a login the gate answers its token with 403,
    whether or not the token has been revoked. *)
Theorem login_token_expires `{E : Externals} `{!JwtSound E} `{!JwtExpiry E}
    (st st' : Store) (t t' : Z) (b : LoginBody) (m token : string) (user : User) :
  login st t b = (st', {| status := 200; body := JLogin m token user |}) →
  (0 ≤ t)%Z →
  (t + oneHour ≤ t')%Z →
  ∃ r,
    authenticateToken st' {| authorization := Some ("Bearer " ++ token); now := t' |}
      = Respond r
    ∧ status r = 403.
Proof.
  intros Hlogin Ht Ht'.
  apply login_success in Hlogin as (-> & -> & _).
  unfold authenticateToken. cbn [authorization now].
  rewrite tokenOf_bearer by apply jwt_sign_compact.
  destruct (decide (_ ∈ tokenBlacklist st)); [by eexists|].
  rewrite jwt_verify_expired; [by eexists|done|done|done].
Qed.

Lemma login_token_expires_witness :
  ∃ token r,
    @authenticateToken Sample.externals Demo.store
      {| authorization := Some ("Bearer " ++ token); now := 3600 |} = Respond r
    ∧ status r = 403.
Proof.
  eexists.
  refine (@login_token_expires Sample.externals sample_sound sample_expiry
            Demo.store Demo.store 0 3600 Demo.login_body
            "Login successful" _ Sample.alice _ _ _).
  - vm_compute. reflexivity.
  - lia.
  - unfold oneHour. lia.
Defined.

(** X13: the controller's logout always answers 200 "Logout
    successful", also when the request carries no token and nothing is
    revoked; revoking a token twice is revoking it once; and the gate
    answers requests that carry any other token as before. *)
Theorem logout_idempotent_and_local `{E : Externals} (st : Store) (cx : Ctx) :
  (logout st cx).2 = {| status := 200; body := JMessage "Logout successful" |}
  ∧ (tokenOf (authorization cx) = None → (logout st cx).1 = st)
  ∧ logout (logout st cx).1 cx = logout st cx
  ∧ ∀ cx', tokenOf (authorization cx') ≠ tokenOf (authorization cx) →
       authenticateToken (logout st cx).1 cx' = authenticateToken st cx'.
Proof.
  split; [done|]. unfold logout.
  destruct (tokenOf (authorization cx)) as [token|] eqn:Htok.
  - split; [done|]. split.
    + f_equal. unfold set_tokenBlacklist. simpl. f_equal.
      by rewrite (assoc_L (∪)), (idemp_L (∪)).
    + intros cx' Hne. unfold authenticateToken. simpl.
      destruct (tokenOf (authorization cx')) as [token'|]; [|done].
      assert (token' ≠ token) as Hneq by congruence.
      destruct (decide (token' ∈ tokenBlacklist st)) as [Hin|Hnin].
      * rewrite decide_True; [done|]. by apply elem_of_union_r.
      * rewrite decide_False; [done|].
        intros [Heq%elem_of_singleton|Hin]%elem_of_union; done.
  - by repeat split.
Qed.

(** X14: POST /logout never answers 400 "Token required": a request
    that has passed the gate carries a token.  Its answers are 200 and
    those of the gate, 401, 403 and 404. *)
Theorem route_logout_never_400 `{E : Externals} (st : Store) (cx : Ctx) :
  status (route_logout st cx).2 = 200
  ∨ status (route_logout st cx).2 = 401
  ∨ status (route_logout st cx).2 = 403
  ∨ status (route_logout st cx).2 = 404.
Proof.
  unfold route_logout, authenticated.
  destruct (authenticateToken st cx) as [r|u] eqn:Hgate.
  - right. by apply (gate_respond_status st cx).
  - left. unfold authenticateToken in Hgate.
    by destruct (tokenOf (authorization cx)).
Qed.

(** ** Courses *)

Lemma find_all_elem {A : Type} (m : gmap ObjectId A) (x : A) :
  x ∈ find_all m ↔ ∃ i, m !! i = Some x.
Proof.
  unfold find_all. rewrite list_elem_of_fmap. split.
  - intros [[i y] [-> Hin]]. exists i. by apply elem_of_map_to_list.
  - intros [i Hi]. exists (i, x). split; [done|]. by apply elem_of_map_to_list.
Qed.

Lemma find_all_length {A : Type} (m : gmap ObjectId A) :
  length (find_all m) = size m.
Proof. unfold find_all. by rewrite length_fmap, length_map_to_list. Qed.

(** X15: an administrator who posts a course with title, description,
    instructor and a price that is an integer of magnitude at most 2^53
    (a value the Number path holds exactly), and with no file or a file
    that [fileFilter] lets through, is answered 201 with the new course,
    whose price is the posted integer; the path of the file is its
    image; GET /courses/:id on its id then answers 200 with the same
    document; the courses that were there are untouched. *)
Theorem create_course_then_get `{E : Externals}
    (st : Store) (cx : Ctx) (u : User) (b : CourseBody) (file : option Upload)
    (title description instructor : string) (price : Z) :
  consistent st →
  authenticateToken st cx = Next u →
  u_role u = RoleAdmin →
  required (cb_title b) = Some title →
  required (cb_description b) = Some description →
  required (cb_instructor b) = Some instructor →
  cb_price b = Some (NumOk price) →
  safe_integer price →
  (∀ f, file = Some f → fileFilter f = true) →
  ∃ st' course,
    course = {| c_id := nextId st; c_title := title; c_description := description;
                c_instructor := instructor; c_price := price;
                c_image := up_path <$> file |}
    ∧ route_create_course st cx b file =
        (st', Single {| status := 201; body := JCourse course |})
    ∧ route_get_course st' cx (IdOk (nextId st)) =
        (st', {| status := 200; body := JCourse course |})
    ∧ ∀ i c, courses st !! i = Some c → courses st' !! i = Some c.
Proof.
  intros (Hbelow & _) Hu Hrole Htitle Hdesc Hinstr Hprice _ Hfile.
  set (course := {| c_id := nextId st; c_title := title;
                    c_description := description; c_instructor := instructor;
                    c_price := price; c_image := up_path <$> file |}).
  exists (set_courses (insert (nextId st) course) (bump st)), course.
  split; [done|].
  assert (authenticateToken (set_courses (insert (nextId st) course) (bump st)) cx
          = Next u) as Hu'
    by (rewrite <- Hu; by apply authenticateToken_ext).
  split; [|split].
  - unfold route_create_course. rewrite (authorized_reply_admin _ _ u) by done.
    unfold saveCourse. rewrite Htitle, Hdesc, Hinstr, Hprice. subst course.
    destruct file as [f|]; simpl; [|done]. by rewrite (Hfile f eq_refl).
  - unfold route_get_course. rewrite (authenticated_next _ _ u) by done.
    simpl. by rewrite lookup_insert_eq.
  - intros i c Hc. simpl. rewrite lookup_insert_ne; [done|].
    intros <-. destruct (Hbelow (nextId st)) as (_ & Hnone & _); [lia|].
    by rewrite Hnone in Hc.
Qed.

Lemma create_course_then_get_witness :
  ∃ st',
    @route_create_course Sample.externals Demo.store Sample.as_admin
      Demo.course_body (Some Demo.picture) =
      (st', Single {| status := 201;
                      body := JCourse {| c_id := 6%N; c_title := "C";
                                         c_description := "d"; c_instructor := "I";
                                         c_price := 5;
                                         c_image := Some "uploads/1.png" |} |})
    ∧ courses st' !! 3%N = Some Demo.course.
Proof.
  destruct (@create_course_then_get Sample.externals Demo.store Sample.as_admin
              Sample.admin Demo.course_body (Some Demo.picture) "C" "d" "I" 5
              demo_consistent)
    as (st' & course & -> & Hr & _ & Hkept); try reflexivity.
  - unfold safe_integer. lia.
  - intros f [= <-]. vm_compute. reflexivity.
  - exists st'. split; [exact Hr|]. by apply Hkept.
Defined.

(** X16: a file whose mimetype does not start with "image" stops an
    administrator's course post in the upload middleware: the handler
    does not run, no course is saved however valid the fields are, and
    the error "Not an image! Please upload only images." is left to
    Express, which answers 500. *)
Theorem create_course_rejects_non_image `{E : Externals}
    (st : Store) (cx : Ctx) (u : User) (b : CourseBody) (f : Upload) :
  authenticateToken st cx = Next u →
  u_role u = RoleAdmin →
  fileFilter f = false →
  route_create_course st cx b (Some f) =
    (st, UploadError "Not an image! Please upload only images.")
  ∧ reply_status (route_create_course st cx b (Some f)).2 = 500.
Proof.
  intros Hu Hrole Hf. unfold route_create_course.
  rewrite (authorized_reply_admin _ _ u) by done. by rewrite Hf.
Qed.

Lemma create_course_rejects_non_image_witness :
  @route_create_course Sample.externals Demo.store Sample.as_admin
    Demo.course_body (Some Demo.document) =
    (Demo.store, UploadError "Not an image! Please upload only images.").
Proof.
  refine (proj1 (@create_course_rejects_non_image Sample.externals Demo.store
                   Sample.as_admin Sample.admin Demo.course_body Demo.document
                   _ _ _)).
  - vm_compute. reflexivity.
  - reflexivity.
  - reflexivity.
Defined.

(** X17: [createCourse] of the course controller cannot succeed: the
    document it builds has no instructor, which courseSchema requires,
    so every call is answered 400 with the validation message and no
    course is saved. *)
Theorem createCourse_always_fails `{E : Externals} (st : Store) (b : CourseCtlBody) :
  createCourse st b = (st, Single {| status := 400; body := JMessageOf ValidationError |}).
Proof.
  unfold createCourse, saveCourse.
  by destruct (required (cc_title b)), (required (cc_description b)).
Qed.

(** X18: GET /courses answers every authenticated user with one entry
    per stored course and nothing else; an administrator gets the
    documents, anyone else gets the [_id], the title and the description
    of each course and no other field. *)
Theorem list_courses_by_role `{E : Externals} (st : Store) (cx : Ctx) (u : User) :
  authenticateToken st cx = Next u →
  ∃ l,
    route_list_courses st cx = (st, CourseList l)
    ∧ length l = size (courses st)
    ∧ (u_role u = RoleAdmin →
       ∀ v, v ∈ l ↔ ∃ i c, courses st !! i = Some c ∧ v = FullCourse c)
    ∧ (u_role u ≠ RoleAdmin →
       ∀ v, v ∈ l ↔
         ∃ i c, courses st !! i = Some c
                ∧ v = TitleDescription (c_id c) (c_title c) (c_description c)).
Proof.
  intros Hu. unfold route_list_courses.
  rewrite (authenticated_reply_next _ _ u) by done.
  destruct (decide (u_role u = RoleAdmin)) as [Hrole|Hrole];
    eexists; (split; [reflexivity|]);
    (split; [by rewrite length_fmap, find_all_length|]);
    (split; [intros Hr|intros Hr]; try done).
  - intros v. rewrite list_elem_of_fmap. split.
    + intros [c [-> [i Hi]%find_all_elem]]. by exists i, c.
    + intros (i & c & Hi & ->). exists c. split; [done|].
      apply find_all_elem. by exists i.
  - intros v. rewrite list_elem_of_fmap. split.
    + intros [c [-> [i Hi]%find_all_elem]]. by exists i, c.
    + intros (i & c & Hi & ->). exists c. split; [done|].
      apply find_all_elem. by exists i.
Qed.

Lemma list_courses_by_role_witness :
  ∃ l,
    @route_list_courses Sample.externals Demo.store Demo.as_alice =
      (Demo.store, CourseList l)
    ∧ length l = 1%nat
    ∧ TitleDescription 3%N "Rocq" "proofs" ∈ l.
Proof.
  destruct (@list_courses_by_role Sample.externals Demo.store Demo.as_alice
              Sample.alice) as (l & Hr & Hlen & _ & Hview).
  - vm_compute. reflexivity.
  - exists l. split; [exact Hr|]. split; [exact Hlen|].
    apply Hview; [discriminate|]. by exists 3%N, Demo.course.
Defined.

(** ** Topics and their lesson *)









(** ** Lessons and their course *)

Lemma find_lessons_by_course_elem (st : Store) (cid : ObjectId) (l : Lesson) :
  l ∈ find_lessons_by_course st cid ↔
  (∃ i, lessons st !! i = Some l) ∧ l_courseId l = cid.
Proof.
  unfold find_lessons_by_course.
  rewrite list_elem_of_filter, find_all_elem. tauto.
Qed.

Lemma route_delete_course_frame `{E : Externals} (st : Store) (cx : Ctx)
    (id : IdParam) :
  lessons (route_delete_course st cx id).1 = lessons st
  ∧ topics (route_delete_course st cx id).1 = topics st
  ∧ users (route_delete_course st cx id).1 = users st
  ∧ tokenBlacklist (route_delete_course st cx id).1 = tokenBlacklist st.
Proof.
  unfold route_delete_course.
  match goal with |- context [authorized ?r st cx ?h] =>
    destruct (authorized_cases r st cx h) as [->|(u & _ & _ & ->)]; [done|]
  end.
  destruct id as [i|]; simpl; [|done]. by destruct (courses st !! i).
Qed.

Lemma lessons_by_course_lists `{E : Externals}
    (st : Store) (cx : Ctx) (u : User) (cid : ObjectId) :
  authenticateToken st cx = Next u →
  ∀ i l, lessons st !! i = Some l → l_courseId l = cid →
    ∃ ls,
      route_lessons_by_course st cx (IdOk cid) = (st, LessonList ls)
      ∧ ∀ l', l' ∈ ls ↔ (∃ j, lessons st !! j = Some l') ∧ l_courseId l' = cid.
Proof.
  intros Hu i l Hi Hc. unfold route_lessons_by_course.
  rewrite (authenticated_reply_next _ _ u) by done.
  assert (l ∈ find_lessons_by_course st cid) as Hin
    by (apply find_lessons_by_course_elem; eauto).
  destruct (find_lessons_by_course st cid) as [|l0 ls] eqn:Hfind.
  { by apply not_elem_of_nil in Hin. }
  eexists. split; [reflexivity|]. intros l'. rewrite <- Hfind.
  apply find_lessons_by_course_elem.
Qed.

(** X22: GET /lessons/course/:courseId looks at the lessons only.  It
    answers 404 "No lessons found for this course" when no lesson names
    the course, also when the course exists; otherwise it lists exactly
    the lessons that name it, also when the course does not exist: the
    answer is the same before and after the course is deleted. *)
Theorem lessons_by_course_ignores_course `{E : Externals}
    (st : Store) (cx : Ctx) (u : User) (cid : ObjectId) :
  authenticateToken st cx = Next u →
  ((∀ i l, lessons st !! i = Some l → l_courseId l ≠ cid) →
     route_lessons_by_course st cx (IdOk cid) =
       (st, Single {| status := 404;
                      body := JError "No lessons found for this course" |}))
  ∧ (∀ i l, lessons st !! i = Some l → l_courseId l = cid →
       ∃ ls,
         route_lessons_by_course st cx (IdOk cid) = (st, LessonList ls)
         ∧ ∀ l', l' ∈ ls ↔ (∃ j, lessons st !! j = Some l') ∧ l_courseId l' = cid)
  ∧ (∀ cx' id,
       (route_lessons_by_course (route_delete_course st cx' id).1 cx (IdOk cid)).2
       = (route_lessons_by_course st cx (IdOk cid)).2).
Proof.
  intros Hu. split; [|split].
  - intros Hnone. unfold route_lessons_by_course.
    rewrite (authenticated_reply_next _ _ u) by done.
    destruct (find_lessons_by_course st cid) as [|l ls] eqn:Hfind; [done|].
    assert (l ∈ find_lessons_by_course st cid) as Hin by (rewrite Hfind; by left).
    apply find_lessons_by_course_elem in Hin as [[i Hi] Hc].
    by destruct (Hnone i l Hi).
  - by apply (lessons_by_course_lists st cx u).
  - intros cx' id.
    destruct (route_delete_course_frame st cx' id) as (Hl & _ & Hus & Hb).
    unfold route_lessons_by_course, authenticated_reply.
    rewrite (authenticateToken_ext st _ cx Hus Hb).
    destruct (authenticateToken st cx); [done|].
    unfold find_lessons_by_course. rewrite Hl.
    by destruct (filter _ _).
Qed.

Lemma lessons_by_course_ignores_course_witness :
  @route_lessons_by_course Sample.externals Sample.with_course Sample.as_admin
    (IdOk 5%N) =
    (Sample.with_course, LessonList [Sample.lonely_lesson])
  ∧ (@route_lessons_by_course Sample.externals
       (@route_delete_course Sample.externals Sample.with_course Sample.as_admin
          (IdOk 5%N)).1
       Sample.as_admin (IdOk 5%N)).2
    = LessonList [Sample.lonely_lesson].
Proof.
  destruct (@lessons_by_course_ignores_course Sample.externals Sample.with_course
              Sample.as_admin Sample.admin 5%N) as (_ & _ & Hsame).
  - vm_compute. reflexivity.
  - split; [vm_compute; reflexivity|].
    rewrite (Hsame Sample.as_admin (IdOk 5%N)). vm_compute. reflexivity.
Defined.

(** X23: a lesson that an administrator has created is then returned
    by GET /lessons/:id under the id drawn for it and listed by
    GET /lessons/course/:courseId under the course id it was given. *)
Theorem create_lesson_then_listed `{E : Externals}
    (st : Store) (cx : Ctx) (u : User) (b : LessonBody)
    (title description : string) (cid : ObjectId) :
  authenticateToken st cx = Next u →
  u_role u = RoleAdmin →
  required (lb_title b) = Some title →
  required (lb_description b) = Some description →
  lb_courseId b = Some (IdOk cid) →
  ∃ st' lesson,
    lesson = {| l_id := nextId st; l_title := title; l_description := description;
                l_courseId := cid; l_topics := lb_topics b;
                l_content := lb_content b; l_v := 0%N |}
    ∧ route_create_lesson st cx b = (st', {| status := 201; body := JLesson lesson |})
    ∧ route_get_lesson st' cx (IdOk (nextId st)) =
        (st', {| status := 200; body := JLesson lesson |})
    ∧ ∃ ls, route_lessons_by_course st' cx (IdOk cid) = (st', LessonList ls)
            ∧ lesson ∈ ls.
Proof.
  intros Hu Hrole Htitle Hdesc Hcid.
  unfold route_create_lesson. rewrite (authorized_admin _ _ u) by done.
  unfold saveLesson. rewrite Htitle, Hdesc, Hcid. simpl.
  eexists _, _. split; [reflexivity|]. split; [reflexivity|].
  match goal with |- context [route_get_lesson ?s _ _] =>
    assert (authenticateToken s cx = Next u) as Hu'
      by (rewrite <- Hu; by apply authenticateToken_ext);
    assert (lessons s !! nextId st = Some
              {| l_id := nextId st; l_title := title; l_description := description;
                 l_courseId := cid; l_topics := lb_topics b;
                 l_content := lb_content b; l_v := 0%N |}) as Hstored
      by apply lookup_insert_eq
  end.
  split.
  - unfold route_get_lesson. rewrite (authenticated_next _ _ u) by done.
    simpl. by rewrite lookup_insert_eq.
  - match goal with |- context [route_lessons_by_course ?s _ _] =>
      destruct (lessons_by_course_lists s cx u cid Hu' _ _ Hstored eq_refl)
        as (ls & Hr & Hin)
    end.
    exists ls. split; [done|]. apply Hin. split; [by eexists|done].
Qed.

Lemma create_lesson_then_listed_witness :
  ∃ st' ls,
    @route_get_lesson Sample.externals st' Sample.as_admin (IdOk 6%N) =
      (st', {| status := 200;
               body := JLesson {| l_id := 6%N; l_title := "L"; l_description := "d";
                                  l_courseId := 99%N; l_topics := [];
                                  l_content := None; l_v := 0%N |} |})
    ∧ @route_lessons_by_course Sample.externals st' Sample.as_admin (IdOk 99%N) =
        (st', LessonList ls).
Proof.
  destruct (@create_lesson_then_listed Sample.externals Demo.store Sample.as_admin
              Sample.admin Sample.lesson_body "L" "d" 99%N)
    as (st' & lesson & -> & _ & Hget & ls & Hlist & _); try reflexivity.
  exists st', ls. split; [exact Hget|exact Hlist].
Defined.

(** X24: [deleteLesson] of the lesson controller answers as the route
    does and removes the same lesson, but it removes no topic: the
    topics that the lesson lists, which the route deletes, stay in the
    store. *)
Theorem deleteLesson_keeps_topics `{E : Externals}
    (st : Store) (cx : Ctx) (u : User) (lid : ObjectId) (lesson : Lesson) :
  authenticateToken st cx = Next u →
  u_role u = RoleAdmin →
  lessons st !! lid = Some lesson →
  ∃ st1 st2,
    deleteLesson st (IdOk lid) =
      (st1, {| status := 200; body := JMessage "Lesson deleted successfully" |})
    ∧ route_delete_lesson st cx (IdOk lid) =
      (st2, {| status := 200; body := JMessage "Lesson deleted successfully" |})
    ∧ lessons st1 = delete lid (lessons st)
    ∧ lessons st2 = lessons st1
    ∧ topics st1 = topics st
    ∧ ∀ tid, tid ∈ l_topics lesson → topics st2 !! tid = None.
Proof.
  intros Hu Hrole Hl. unfold deleteLesson, route_delete_lesson.
  rewrite (authorized_admin _ _ u) by done.
  unfold findByIdAndDelete. rewrite Hl.
  eexists _, _. split; [reflexivity|]. split; [reflexivity|]. simpl.
  repeat split. intros tid Hin. by apply deleteManyIn_listed.
Qed.

Lemma deleteLesson_keeps_topics_witness :
  ∃ st1 st2,
    (deleteLesson Demo.store (IdOk 4%N)).1 = st1
    ∧ (@route_delete_lesson Sample.externals Demo.store Sample.as_admin (IdOk 4%N)).1
      = st2
    ∧ topics st1 !! 5%N = Some Demo.topic
    ∧ topics st2 !! 5%N = None.
Proof.
  destruct (@deleteLesson_keeps_topics Sample.externals Demo.store Sample.as_admin
              Sample.admin 4%N Demo.lesson)
    as (st1 & st2 & H1 & H2 & _ & _ & Ht & Hgone); try reflexivity.
  exists st1, st2. split; [exact (f_equal fst H1)|].
  split; [exact (f_equal fst H2)|]. split.
  - rewrite Ht. reflexivity.
  - apply Hgone. apply list_elem_of_singleton. reflexivity.
Defined.

(** ** The Set of revoked tokens *)

(** X25: a token is blacklisted once it has been added, adding it again
    changes nothing, adding another token does not change whether it is
    blacklisted; the controller's logout adds the token of its request,
    and a request whose token is blacklisted is answered 403 by the
    gate. *)
Theorem tokenBlacklist_add_isBlacklisted `{E : Externals}
    (st : Store) (t t' : string) :
  isBlacklisted t (tokenBlacklist_add t st) = true
  ∧ tokenBlacklist_add t (tokenBlacklist_add t st) = tokenBlacklist_add t st
  ∧ (t ≠ t' → isBlacklisted t (tokenBlacklist_add t' st) = isBlacklisted t st)
  ∧ (∀ cx, tokenOf (authorization cx) = Some t →
       (logout st cx).1 = tokenBlacklist_add t st)
  ∧ (∀ cx, tokenOf (authorization cx) = Some t →
       isBlacklisted t st = true →
       authenticateToken st cx =
         Respond {| status := 403;
                    body := JMessage "Token is blacklisted. Please log in again." |}).
Proof.
  unfold isBlacklisted, tokenBlacklist_add. simpl. split; [|split; [|split; [|split]]].
  - apply bool_decide_eq_true. apply elem_of_union_l. by apply elem_of_singleton.
  - unfold set_tokenBlacklist. simpl. f_equal.
    by rewrite (assoc_L (∪)), (idemp_L (∪)).
  - intros Hne. apply bool_decide_ext. rewrite elem_of_union, elem_of_singleton.
    tauto.
  - intros cx Ht. unfold logout. by rewrite Ht.
  - intros cx Ht Hin. apply bool_decide_eq_true in Hin.
    by apply (gate_blacklisted st cx t).
Qed.

(** ** Malformed ids and missing fields *)

(** X26: each of the eight routes with an id in its path answers an id
    that does not cast to an ObjectId with 400 and the cast error, once
    the request is through the gate; the three routes registered for
    administrators ask for that role first, the five GET routes answer
    any signed-in user so; nothing is written. *)
Theorem serve_malformed_id `{E : Externals}
    (st : Store) (q : Request) (cx : Ctx) (u : User) :
  protected_ctx q = Some cx →
  path_id q = Some IdMalformed →
  authenticateToken st cx = Next u →
  (admin_only q = true → u_role u = RoleAdmin) →
  serve st q = (st, Single {| status := 400; body := JErrorOf CastError |}).
Proof.
  intros Hcx Hid Hu Hrole.
  destruct q; simpl in Hcx, Hid; try discriminate;
    injection Hcx as ->; injection Hid as ->; simpl in *;
    unfold single, route_delete_course, route_get_course, route_get_lesson,
      route_delete_lesson, route_get_lesson_topics, route_lessons_by_course,
      route_get_topic, route_delete_topic;
    rewrite ?(authorized_admin _ _ u), ?(authenticated_next _ _ u),
      ?(authenticated_reply_next _ _ u) by (try done; by apply Hrole);
    done.
Qed.

Lemma serve_malformed_id_witness :
  @serve Sample.externals Demo.store (GetTopic Demo.as_alice IdMalformed) =
    (Demo.store, Single {| status := 400; body := JErrorOf CastError |})
  ∧ @serve Sample.externals Demo.store
      (DeleteAdminTopic Sample.as_admin IdMalformed) =
    (Demo.store, Single {| status := 400; body := JErrorOf CastError |}).
Proof.
  split.
  - refine (@serve_malformed_id Sample.externals Demo.store
              (GetTopic Demo.as_alice IdMalformed) Demo.as_alice Sample.alice
              eq_refl eq_refl _ _).
    + vm_compute. reflexivity.
    + discriminate.
  - refine (@serve_malformed_id Sample.externals Demo.store
              (DeleteAdminTopic Sample.as_admin IdMalformed) Sample.as_admin
              Sample.admin eq_refl eq_refl _ _).
    + vm_compute. reflexivity.
    + reflexivity.
Defined.



(** ** Deleting a lesson, seen from the other lessons *)

(** X28: after an administrator has deleted a lesson, the lesson and
    its topic list answer 404; every other lesson is unchanged and
    still lists what it listed, and GET /lessons/:id/topics on it shows
    the topics it showed before except those that the deleted lesson
    listed too, which are gone. *)
Theorem delete_lesson_seen_from_others `{E : Externals}
    (st : Store) (cx : Ctx) (u : User) (lid : ObjectId) (lesson : Lesson) :
  authenticateToken st cx = Next u →
  u_role u = RoleAdmin →
  lessons st !! lid = Some lesson →
  ∃ st',
    route_delete_lesson st cx (IdOk lid) =
      (st', {| status := 200; body := JMessage "Lesson deleted successfully" |})
    ∧ route_get_lesson st' cx (IdOk lid) =
        (st', {| status := 404; body := JError "Lesson not found" |})
    ∧ route_get_lesson_topics st' cx (IdOk lid) =
        (st', Single {| status := 404; body := JError "Lesson not found" |})
    ∧ ∀ j other, j ≠ lid → lessons st !! j = Some other →
        lessons st' !! j = Some other
        ∧ ∃ l,
            route_get_lesson_topics st' cx (IdOk j) = (st', TopicList l)
            ∧ ∀ t, t ∈ l ↔
                ∃ i, i ∈ l_topics other ∧ (i ∉ l_topics lesson)
                     ∧ topics st !! i = Some t.
Proof.
  intros Hu Hrole Hl. unfold route_delete_lesson.
  rewrite (authorized_admin _ _ u) by done.
  unfold findByIdAndDelete. rewrite Hl.
  eexists. split; [reflexivity|].
  match goal with |- context [route_get_lesson ?s _ _] =>
    assert (authenticateToken s cx = Next u) as Hu'
      by (rewrite <- Hu; by apply authenticateToken_ext)
  end.
  unfold route_get_lesson, route_get_lesson_topics.
  rewrite !(authenticated_next _ _ u), !(authenticated_reply_next _ _ u) by done.
  simpl. rewrite lookup_delete_eq. split; [done|]. split; [done|].
  intros j other Hj Hother.
  rewrite !(authenticated_reply_next _ _ u) by done. simpl.
  rewrite lookup_delete_ne by done. rewrite Hother. split; [done|].
  eexists. split; [reflexivity|]. intros t.
  unfold populate_topics. rewrite list_elem_of_omap. simpl. split.
  - intros (i & Hi & Hlook). exists i. split; [done|].
    unfold deleteManyIn in Hlook.
    by apply map_lookup_filter_Some in Hlook as [? ?].
  - intros (i & Hi & Hnot & Hlook). exists i. split; [done|].
    by rewrite deleteManyIn_unlisted.
Qed.

Lemma delete_lesson_seen_from_others_witness :
  ∃ st',
    @route_delete_lesson Sample.externals Demo.store Sample.as_admin (IdOk 4%N) =
      (st', {| status := 200; body := JMessage "Lesson deleted successfully" |})
    ∧ @route_get_lesson_topics Sample.externals st' Sample.as_admin (IdOk 4%N) =
        (st', Single {| status := 404; body := JError "Lesson not found" |}).
Proof.
  destruct (@delete_lesson_seen_from_others Sample.externals Demo.store
              Sample.as_admin Sample.admin 4%N Demo.lesson)
    as (st' & Hr & _ & Hgone & _); try reflexivity.
  exists st'. split; [exact Hr|exact Hgone].
Defined.

(** ** Who can become an administrator *)

(** X29: signup is open and takes the role from the body: a signup
    with role "admin", valid fields and a new email creates an
    administrator, and the token it returns passes
    [authorizeRoles("admin")] for the hour that follows, unless it has
    been revoked. *)
Theorem signup_as_admin `{E : Externals} `{!JwtSound E}
    (st : Store) (t : Z) (b : SignupBody) (name email password : string) :
  required (sb_name b) = Some name →
  required (sb_email b) = Some email →
  required (sb_password b) = Some password →
  sb_role b = Some "admin" →
  findOneByEmail (users st) (sb_email b) = None →
  ∃ st' newUser token,
    signup st t b =
      (st', {| status := 201;
               body := JSignup "User created successfully" newUser token |})
    ∧ u_role newUser = RoleAdmin
    ∧ ∀ t' handler,
        t ≤ t' < t + oneHour →
        token ∉ tokenBlacklist st →
        authorized [RoleAdmin] st'
          {| authorization := Some ("Bearer " ++ token); now := t' |} handler
        = handler newUser.
Proof.
  intros Hname Hemail Hpw Hrole Hfree. unfold signup. rewrite Hfree.
  unfold saveUser. rewrite Hname, Hemail, Hpw, Hrole.
  destruct (required_Some _ _ Hemail) as [Heq _].
  rewrite <- Heq, Hfree. simpl.
  eexists _, _, _. split; [reflexivity|]. split; [done|].
  intros t' handler Ht' Hnot.
  apply authorized_admin; [|done].
  unfold authenticateToken. cbn [authorization now].
  rewrite tokenOf_bearer by apply jwt_sign_compact.
  rewrite decide_False by done.
  rewrite jwt_verify_sign by done. simpl.
  by rewrite lookup_insert_eq.
Qed.

Lemma signup_as_admin_witness :
  ∃ st' newUser token,
    @signup Sample.externals Demo.store 0
      {| sb_name := Some "M"; sb_email := Some "m@x.com"; sb_password := Some "pw";
         sb_role := Some "admin"; sb_profilePhoto := None; sb_phoneNumber := None;
         sb_courses := []; sb_knowledge := None |} =
      (st', {| status := 201;
               body := JSignup "User created successfully" newUser token |})
    ∧ u_role newUser = RoleAdmin
    ∧ (@route_delete_course Sample.externals st'
         {| authorization := Some ("Bearer " ++ token); now := 1 |} (IdOk 3%N)).2
      = {| status := 200; body := JMessage "Course deleted successfully" |}.
Proof.
  destruct (@signup_as_admin Sample.externals sample_sound Demo.store 0
              {| sb_name := Some "M"; sb_email := Some "m@x.com";
                 sb_password := Some "pw"; sb_role := Some "admin";
                 sb_profilePhoto := None; sb_phoneNumber := None;
                 sb_courses := []; sb_knowledge := None |} "M" "m@x.com" "pw")
    as (st' & newUser & token & Hr & Hrole & Hpass); try reflexivity.
  exists st', newUser, token. split; [exact Hr|]. split; [exact Hrole|].
  unfold route_delete_course. rewrite Hpass.
  - injection Hr as <- _ _. reflexivity.
  - unfold oneHour. lia.
  - apply not_elem_of_empty.
Defined.

(** ** The topics of a lesson, populated *)

Lemma populate_sublist (st : Store) (ids : list ObjectId) :
  ids_match st → t_id <$> populate_topics st ids `sublist_of` ids.
Proof.
  intros (_ & _ & _ & Hids). unfold populate_topics.
  induction ids as [|i ids IH]; [constructor|].
  change (omap (λ k, topics st !! k) (i :: ids))
    with (match topics st !! i with
          | Some t => t :: omap (λ k, topics st !! k) ids
          | None => omap (λ k, topics st !! k) ids
          end).
  destruct (topics st !! i) as [t|] eqn:Ht.
  - rewrite fmap_cons, (Hids i t Ht). by apply sublist_skip.
  - by apply sublist_cons.
Qed.

(** X30: GET /lessons/:id/topics shows topics in the order of the
    [topics] array of the lesson and only topics that the array lists:
    the ids of the topics shown are the array with the ids that name no
    topic left out.  It answers 404 for a lesson that does not
    exist. *)
Theorem lesson_topics_in_order `{E : Externals}
    (st : Store) (cx : Ctx) (u : User) (lid : ObjectId) :
  consistent st →
  authenticateToken st cx = Next u →
  (lessons st !! lid = None →
     route_get_lesson_topics st cx (IdOk lid) =
       (st, Single {| status := 404; body := JError "Lesson not found" |}))
  ∧ (∀ lesson, lessons st !! lid = Some lesson →
       ∃ l,
         route_get_lesson_topics st cx (IdOk lid) = (st, TopicList l)
         ∧ t_id <$> l = filter (λ i, is_Some (topics st !! i)) (l_topics lesson)
         ∧ t_id <$> l `sublist_of` l_topics lesson
         ∧ ∀ t, t ∈ l → topics st !! t_id t = Some t).
Proof.
  intros (_ & Hmatch & _) Hu. unfold route_get_lesson_topics.
  rewrite (authenticated_reply_next _ _ u) by done. simpl.
  split; [by intros ->|]. intros lesson ->.
  eexists. split; [reflexivity|].
  split; [|split; [by apply populate_sublist|]].
  - destruct Hmatch as (_ & _ & _ & Hids). unfold populate_topics.
    induction (l_topics lesson) as [|i ids IH]; [done|].
    change (omap (λ k, topics st !! k) (i :: ids))
      with (match topics st !! i with
            | Some t => t :: omap (λ k, topics st !! k) ids
            | None => omap (λ k, topics st !! k) ids
            end).
    destruct (topics st !! i) as [t|] eqn:Ht.
    + rewrite filter_cons_True by (by rewrite Ht).
      by rewrite fmap_cons, (Hids i t Ht), IH.
    + rewrite filter_cons_False; [done|]. rewrite Ht. by intros [? ?].
  - intros t [i [_ Hi]]%list_elem_of_omap.
    destruct Hmatch as (_ & _ & _ & Hids). by rewrite (Hids i t Hi).
Qed.

Lemma lesson_topics_in_order_witness :
  ∃ l,
    @route_get_lesson_topics Sample.externals Demo.store Demo.as_alice (IdOk 4%N) =
      (Demo.store, TopicList l)
    ∧ t_id <$> l = [5%N].
Proof.
  destruct (@lesson_topics_in_order Sample.externals Demo.store Demo.as_alice
              Sample.alice 4%N demo_consistent) as [_ Hsome].
  - vm_compute. reflexivity.
  - destruct (Hsome Demo.lesson eq_refl) as (l & Hr & Hids & _).
    exists l. split; [exact Hr|]. rewrite Hids. vm_compute. reflexivity.
Defined.
